(** * jobs/job_utils.py: entity accessors, entity and query conversion, and
      the in-memory query evaluator.

    The Python module is embedded as executable Rocq functions.  Fallible
    code returns [Result]; the list that [apply_query_to_models] mutates in
    place is passed in and returned.  The collaborators the module only
    calls (ndb models and keys, the Beam entity, key and query types, the
    datastore filter and order objects) are modelled as plain data with the
    few methods the module uses. *)

From Stdlib Require Import List String Ascii ZArith Bool Lia.
From Stdlib Require Import Sorting.Sorted Sorting.Permutation.
Import ListNotations.

Local Open Scope string_scope.
Local Open Scope list_scope.
Local Open Scope Z_scope.

(* ------------------------------------------------------------------ *)
(** ** Exceptions and results *)

(** The exception classes the module raises or lets through.  A message of
    the source that interpolates [%r] of an object keeps the format string
    as it is written; [%s] of a string is expanded. *)
Inductive Exc : Type :=
| TypeError (msg : string)
| ValueError (msg : string)
| AttributeError (attr : string)
| KindError (kind : string).

Inductive Result (A : Type) : Type :=
| Ok (a : A)
| Raise (e : Exc).

Arguments Ok {A} a.
Arguments Raise {A} e.

Definition bind {A B : Type} (c : Result A) (k : A -> Result B) : Result B :=
  match c with
  | Ok a => k a
  | Raise e => Raise e
  end.

Notation "x <- c ;; k" := (bind c (fun x => k))
  (at level 61, c at next level, right associativity).

(** [[f(x) for x in l]], left to right. *)
Fixpoint mapM {A B : Type} (f : A -> Result B) (l : list A) : Result (list B) :=
  match l with
  | [] => Ok []
  | x :: r => y <- f x ;; r' <- mapM f r ;; Ok (y :: r')
  end.

(** [[x for x in l if f(x)]], left to right. *)
Fixpoint filterM {A : Type} (f : A -> Result bool) (l : list A) : Result (list A) :=
  match l with
  | [] => Ok []
  | x :: r => b <- f x ;; r' <- filterM f r ;; Ok (if b then x :: r' else r')
  end.

(** [all(f(x) for x in l)]: the generator is consumed up to the first
    false element, later elements are not evaluated. *)
Fixpoint py_all {A : Type} (f : A -> Result bool) (l : list A) : Result bool :=
  match l with
  | [] => Ok true
  | x :: r => b <- f x ;; if b then py_all f r else Ok false
  end.

(* ------------------------------------------------------------------ *)
(** ** Keys and values *)

(** The terminal component of a key path element: an integer id or a
    string name.  Incomplete keys (no id yet) are not modelled. *)
Inductive KeyId : Type :=
| IdInt (n : Z)
| IdName (s : string).

(** An ndb key: application, namespace and the path of (kind, id) pairs,
    the last of which is kept apart so that the path is never empty. *)
Record Key : Type := mkKey {
  key_app : string;
  key_namespace : string;
  key_parent : list (string * KeyId);
  key_kind : string;
  key_id : KeyId
}.

Definition key_pairs (k : Key) : list (string * KeyId) :=
  key_parent k ++ [(key_kind k, key_id k)].

(** The Python values that properties, ids and filter literals range over. *)
Inductive Value : Type :=
| VNone
| VInt (n : Z)
| VStr (s : string)
| VKey (k : Key).

Definition id_value (i : KeyId) : Value :=
  match i with
  | IdInt n => VInt n
  | IdName s => VStr s
  end.

Definition KeyId_eq_dec (a b : KeyId) : {a = b} + {a <> b}.
Proof. decide equality; [apply Z.eq_dec | apply string_dec]. Defined.

Definition Key_eq_dec (a b : Key) : {a = b} + {a <> b}.
Proof.
  decide equality; try apply string_dec; try apply KeyId_eq_dec.
  apply list_eq_dec. decide equality; [apply KeyId_eq_dec | apply string_dec].
Defined.

Definition Value_eq_dec (a b : Value) : {a = b} + {a <> b}.
Proof.
  decide equality; [apply Z.eq_dec | apply string_dec | apply Key_eq_dec].
Defined.

(** [a == b]: never raises; values of different types are unequal. *)
Definition py_eq (a b : Value) : bool :=
  if Value_eq_dec a b then true else false.

(** *** Ordering comparisons

    [py_compare] is the three-way outcome of the rich comparisons on two
    values of one type: integers, strings by code point, keys as tuples.
    Values of different types, and [None], are given no order: the
    comparison raises [TypeError], as in Python 3 (Python 2 would order
    them by an implementation-defined rule).  No property below depends on
    a comparison raising. *)

Definition unorderable : Exc := TypeError "unorderable types".

Definition keyid_cmp (i j : KeyId) : Result comparison :=
  match i, j with
  | IdInt a, IdInt b => Ok (a ?= b)
  | IdName s, IdName t => Ok (String.compare s t)
  | _, _ => Raise unorderable
  end.

(** Tuple comparison: the first differing component decides. *)
Definition pair_cmp (p q : string * KeyId) : Result comparison :=
  match String.compare (fst p) (fst q) with
  | Eq => keyid_cmp (snd p) (snd q)
  | c => Ok c
  end.

Fixpoint pairs_cmp (l1 l2 : list (string * KeyId)) : Result comparison :=
  match l1, l2 with
  | [], [] => Ok Eq
  | [], _ :: _ => Ok Lt
  | _ :: _, [] => Ok Gt
  | p :: r1, q :: r2 =>
      c <- pair_cmp p q ;;
      match c with
      | Eq => pairs_cmp r1 r2
      | _ => Ok c
      end
  end.

(** [Key.__lt__] and friends compare the tuples (app, namespace, pairs). *)
Definition key_cmp (k1 k2 : Key) : Result comparison :=
  match String.compare (key_app k1) (key_app k2) with
  | Eq =>
      match String.compare (key_namespace k1) (key_namespace k2) with
      | Eq => pairs_cmp (key_pairs k1) (key_pairs k2)
      | c => Ok c
      end
  | c => Ok c
  end.

Definition py_compare (a b : Value) : Result comparison :=
  match a, b with
  | VInt x, VInt y => Ok (x ?= y)
  | VStr s, VStr t => Ok (String.compare s t)
  | VKey k1, VKey k2 => key_cmp k1 k2
  | _, _ => Raise unorderable
  end.

Definition is_lt (c : comparison) : bool :=
  match c with Lt => true | _ => false end.

Definition is_gt (c : comparison) : bool :=
  match c with Gt => true | _ => false end.

(** [operator.lt], [operator.le], [operator.eq], [operator.ge],
    [operator.gt]. *)
Definition py_lt (a b : Value) : Result bool :=
  c <- py_compare a b ;; Ok (is_lt c).

Definition py_le (a b : Value) : Result bool :=
  c <- py_compare a b ;; Ok (negb (is_gt c)).

Definition py_ge (a b : Value) : Result bool :=
  c <- py_compare a b ;; Ok (negb (is_lt c)).

Definition py_gt (a b : Value) : Result bool :=
  c <- py_compare a b ;; Ok (is_gt c).

Definition operator_eq (a b : Value) : Result bool := Ok (py_eq a b).

(* ------------------------------------------------------------------ *)
(** ** Models *)

(** A model class: its name and what its [_get_kind()] returns (the class
    name unless the class overrides it). *)
Record ModelClass : Type := mkClass {
  class_name : string;
  class_kind : string
}.

(** A model instance: its class, its key ([None] until one is assigned)
    and its property values, as [_to_dict()] lists them. *)
Record Model : Type := mkModel {
  model_class : ModelClass;
  model_key : option Key;
  model_properties : list (string * Value)
}.

(** What a caller can pass where a model is expected: a model instance, a
    model class, or some other object. *)
Inductive PyObj : Type :=
| PModel (m : Model)
| PClass (c : ModelClass)
| PValue (v : Value).

(** [model.key] as a value. *)
Definition key_value (m : Model) : Value :=
  match model_key m with
  | Some k => VKey k
  | None => VNone
  end.

Fixpoint assoc (name : string) (d : list (string * Value)) : option Value :=
  match d with
  | [] => None
  | (n, v) :: r => if String.eqb n name then Some v else assoc name r
  end.

(** [getattr(model, name)] on a model instance: the key, or a property
    value; methods and other class attributes are not values here. *)
Definition getattr (m : Model) (name : string) : Result Value :=
  if String.eqb name "key" then Ok (key_value m)
  else match assoc name (model_properties m) with
       | Some v => Ok v
       | None => Raise (AttributeError name)
       end.

(* ------------------------------------------------------------------ *)
(** ** Entity accessors *)

Definition get_model_key (model : PyObj) : Result Value :=
  match model with
  | PModel m => Ok (key_value m)
  | _ => Raise (TypeError "%r is not a model instance")
  end.

Definition get_model_kind (model : PyObj) : Result string :=
  match model with
  | PModel m => Ok (class_kind (model_class m))
  | PClass c => Ok (class_kind c)
  | PValue _ => Raise (TypeError "%r is not a model type or instance")
  end.

Definition get_model_id (model : PyObj) : Result Value :=
  match model with
  | PModel m =>
      match model_key m with
      | None => Ok VNone
      | Some k => Ok (id_value (key_id k))
      end
  | _ => Raise (TypeError "%r is not a model instance")
  end.

Definition get_model_property (model : PyObj) (property_name : string)
  : Result Value :=
  if String.eqb property_name "id" then get_model_id model
  else if String.eqb property_name "__key__" then get_model_key model
  else match model with
       | PModel m => getattr m property_name
       | _ => Raise (TypeError "%r is not a model instance")
       end.

(* ------------------------------------------------------------------ *)
(** ** Entity converter *)

(** [Key.flat()]: the path as one flat tuple (kind1, id1, ..., kindN, idN). *)
Fixpoint flat_pairs (ps : list (string * KeyId)) : list Value :=
  match ps with
  | [] => []
  | (k, i) :: r => VStr k :: id_value i :: flat_pairs r
  end.

Definition flat (k : Key) : list Value := flat_pairs (key_pairs k).

(** [beam_datastore_types.Key(path_elements, project=...)]. *)
Record BeamKey : Type := mkBeamKey {
  path_elements : list Value;
  project : string
}.

(** [beam_datastore_types.Entity]: a key and a property dictionary. *)
Record BeamEntity : Type := mkBeamEntity {
  entity_key : BeamKey;
  entity_properties : list (string * Value)
}.

Definition has_name (name : string) (d : list (string * Value)) : bool :=
  existsb (fun nv => String.eqb (fst nv) name) d.

(** [d.update(new)]: the entries of [new], then the entries of [d] that
    [new] does not override. *)
Definition dict_update (d new : list (string * Value)) : list (string * Value) :=
  new ++ filter (fun nv => negb (has_name (fst nv) new)) d.

(** [Entity.set_properties(property_dict)] updates the entity's dictionary. *)
Definition set_properties (e : BeamEntity) (property_dict : list (string * Value))
  : BeamEntity :=
  mkBeamEntity (entity_key e) (dict_update (entity_properties e) property_dict).

(** Reading a flat path back into (kind, id-or-name) pairs, as the client
    key constructor does. *)
Fixpoint parse_path (path : list Value) : Result (list (string * KeyId)) :=
  match path with
  | [] => Ok []
  | VStr k :: VInt n :: r => r' <- parse_path r ;; Ok ((k, IdInt n) :: r')
  | VStr k :: VStr s :: r => r' <- parse_path r ;; Ok ((k, IdName s) :: r')
  | _ => Raise (ValueError "malformed key path")
  end.

(** [beam_key.to_client_key()]: a key of the Beam project with the same
    path; its [kind] and [id_or_name] are those of the last path element. *)
Definition to_client_key (bk : BeamKey) : Result Key :=
  ps <- parse_path (path_elements bk) ;;
  match rev ps with
  | [] => Raise (ValueError "Key path must not be empty")
  | (k, i) :: rparent => Ok (mkKey (project bk) EmptyString (rev rparent) k i)
  end.

Section EntityConverter.

(** [feconf.OPPIA_PROJECT_ID]. *)
Variable OPPIA_PROJECT_ID : string.

(** The application id that ndb gives to the key of a newly built model. *)
Variable APPLICATION_ID : string.

(** [Model._kind_map], the registry from kind to model class. *)
Variable kind_map : list (string * ModelClass).

(** [Model._lookup_model(kind)]. *)
Fixpoint _lookup_model_in (reg : list (string * ModelClass)) (kind : string)
  : Result ModelClass :=
  match reg with
  | [] => Raise (KindError kind)
  | (k, c) :: r => if String.eqb k kind then Ok c else _lookup_model_in r kind
  end.

Definition _lookup_model (kind : string) : Result ModelClass :=
  _lookup_model_in kind_map kind.

(** [model_class(id=model_id, **properties)]: a property called [id] would
    be a second value for the keyword [id]; otherwise the new model has the
    key (kind of the class, id) and the given property values. *)
Definition new_model (cls : ModelClass) (model_id : KeyId)
    (properties : list (string * Value)) : Result Model :=
  if has_name "id" properties
  then Raise (TypeError "got multiple values for keyword argument 'id'")
  else Ok (mkModel cls
             (Some (mkKey APPLICATION_ID EmptyString [] (class_kind cls) model_id))
             properties).

Definition get_beam_entity_from_model (model : Model) : Result BeamEntity :=
  match model_key model with
  | None => Raise (AttributeError "flat")
  | Some k =>
      let beam_entity := mkBeamEntity (mkBeamKey (flat k) OPPIA_PROJECT_ID) [] in
      Ok (set_properties beam_entity (model_properties model))
  end.

Definition get_model_from_beam_entity (beam_entity : BeamEntity) : Result Model :=
  beam_key <- to_client_key (entity_key beam_entity) ;;
  let model_id := key_id beam_key in
  model_class <- _lookup_model (key_kind beam_key) ;;
  new_model model_class model_id (entity_properties beam_entity).

End EntityConverter.

(* ------------------------------------------------------------------ *)
(** ** Queries *)

(** A Python sequence attribute that may also be [None]; a tuple and a
    list with the same items are different values. *)
Inductive PySeq (A : Type) : Type :=
| PyNone
| PyTuple (items : list A)
| PyList (items : list A).

Arguments PyNone {A}.
Arguments PyTuple {A} items.
Arguments PyList {A} items.

Definition seq_items {A : Type} (s : PySeq A) : list A :=
  match s with
  | PyNone => []
  | PyTuple l => l
  | PyList l => l
  end.

(** A flat filter: (property name, comparison operator, value). *)
Definition Filter : Type := string * string * Value.

(** [beam_datastore_types.Query]. *)
Record Query : Type := mkQuery {
  q_kind : option string;
  q_namespace : option string;
  q_filters : PySeq Filter;
  q_order : PySeq string;
  q_limit : option Z
}.

(** The operator codes of a datastore property filter. *)
Inductive Operator : Type :=
| LESS_THAN
| LESS_THAN_OR_EQUAL
| GREATER_THAN
| GREATER_THAN_OR_EQUAL
| EQUAL.

(** [datastore_query.PropertyFilter._OPERATORS_INVERSE]. *)
Definition _OPERATORS_INVERSE (op : Operator) : string :=
  match op with
  | LESS_THAN => "<"
  | LESS_THAN_OR_EQUAL => "<="
  | GREATER_THAN => ">"
  | GREATER_THAN_OR_EQUAL => ">="
  | EQUAL => "="
  end.

(** One comparison of a property with a literal: what a [FilterNode] holds
    and what each filter protocol buffer of [_to_pbs()] carries. *)
Record Comparison : Type := mkComparison {
  cmp_name : string;
  cmp_op : Operator;
  cmp_value : Value
}.

(** The ndb filter nodes.  ndb builds a [ConjunctionNode] only from two or
    more nodes; [!=], [IN] and [OR] all build a [DisjunctionNode] (of
    conjunctions of comparisons). *)
Inductive Node : Type :=
| FilterNode (c : Comparison)
| ConjunctionNode (c1 c2 : Comparison) (rest : list Comparison)
| DisjunctionNode (alternatives : list (list Comparison))
| FalseNode
| ParameterNode (name : string)
| PostFilterNode.

Inductive Direction : Type := ASCENDING | DESCENDING.

Record PropertyOrder : Type := mkOrder {
  prop : string;
  direction : Direction
}.

(** [datastore_query.Order]: one property order or a composite of them. *)
Inductive Order : Type :=
| SingleOrder (o : PropertyOrder)
| CompositeOrder (orders : list PropertyOrder).

(** An ndb query, as far as the conversion reads it. *)
Record NdbQuery : Type := mkNdbQuery {
  ndb_kind : option string;
  ndb_namespace : option string;
  ndb_filters : option Node;
  ndb_orders : option Order
}.

Definition forbidden_filters_message : string :=
  "`!=`, `IN`, and `OR` are forbidden filters. To emulate their behavior, use multiple AND queries and flatten them into a single PCollection.".

Definition _get_beam_filters_from_ndb_filter_node (filter_node : Node)
  : Result (list Filter) :=
  nodes <-
    match filter_node with
    | ConjunctionNode c1 c2 rest => Ok (c1 :: c2 :: rest)
    | FilterNode c => Ok [c]
    | _ => Raise (TypeError forbidden_filters_message)
    end ;;
  Ok (map (fun pb => (cmp_name pb, _OPERATORS_INVERSE (cmp_op pb), cmp_value pb))
          nodes).

Definition order_key (o : PropertyOrder) : string :=
  String.append
    (match direction o with DESCENDING => "-" | ASCENDING => EmptyString end)
    (prop o).

Definition _get_beam_order_from_ndb_order (order : Order) : PySeq string :=
  let orders :=
    match order with
    | CompositeOrder os => os
    | SingleOrder o => [o]
    end in
  PyTuple (map order_key orders).

Definition get_beam_query_from_ndb_query (query : NdbQuery) : Result Query :=
  let kind := ndb_kind query in
  let namespace := ndb_namespace query in
  filters <-
    match ndb_filters query with
    | Some node =>
        fs <- _get_beam_filters_from_ndb_filter_node node ;; Ok (PyList fs)
    | None => Ok PyNone
    end ;;
  let order :=
    match ndb_orders query with
    | Some o => _get_beam_order_from_ndb_order o
    | None => PyNone
    end in
  let order :=
    match kind, order with
    | None, PyNone => PyTuple ["__key__"]
    | _, _ => order
    end in
  Ok (mkQuery kind namespace filters order None).

(* ------------------------------------------------------------------ *)
(** ** Query evaluator *)

Definition unsupported_operator_message (comp_str : string) : string :=
  String.append "Unsupported comparison operator: " comp_str.

Definition _get_operator (comp_str : string)
  : Result (Value -> Value -> Result bool) :=
  if String.eqb comp_str "<" then Ok py_lt
  else if String.eqb comp_str "<=" then Ok py_le
  else if String.eqb comp_str "=" then Ok operator_eq
  else if String.eqb comp_str ">=" then Ok py_ge
  else if String.eqb comp_str ">" then Ok py_gt
  else Raise (ValueError (unsupported_operator_message comp_str)).

(** Insertion of [x] in front of the first element that is not below it;
    only [<] is used, as [list.sort] does. *)
Fixpoint insertM {A : Type} (lt : A -> A -> Result bool) (x : A) (l : list A)
  : Result (list A) :=
  match l with
  | [] => Ok [x]
  | y :: r =>
      b <- lt y x ;;
      if b then r' <- insertM lt x r ;; Ok (y :: r') else Ok (x :: y :: r)
  end.

Fixpoint sortM {A : Type} (lt : A -> A -> Result bool) (l : list A)
  : Result (list A) :=
  match l with
  | [] => Ok []
  | x :: r => r' <- sortM lt r ;; insertM lt x r'
  end.

(** [l.sort(key=key, reverse=reverse)]: the keys are computed first, the
    sort is stable and compares keys with [<]; a reverse sort reverses the
    list, sorts it forward and reverses the result, so that equal elements
    keep their order. *)
Definition list_sort {A : Type} (key : A -> Result Value) (reverse : bool)
    (l : list A) : Result (list A) :=
  keyed <- mapM (fun x => k <- key x ;; Ok (k, x)) l ;;
  let keyed := if reverse then rev keyed else keyed in
  sorted <- sortM (fun p q => py_lt (fst p) (fst q)) keyed ;;
  Ok (map snd (if reverse then rev sorted else sorted)).

(** [property_name.startswith('-')] and [property_name[1:]]. *)
Definition strip_sign (property_name : string) : bool * string :=
  match property_name with
  | String "-"%char rest => (true, rest)
  | _ => (false, property_name)
  end.

Definition _sort_by_property_name (model_list : list PyObj)
    (property_name : string) : Result (list PyObj) :=
  let (reverse, property_name) := strip_sign property_name in
  list_sort (fun model => get_model_property model property_name)
            reverse model_list.

(** Truth value of an optional string, of a sequence, of an optional int. *)
Definition str_truthy (s : option string) : bool :=
  match s with
  | Some (String _ _) => true
  | _ => false
  end.

Definition seq_truthy {A : Type} (s : PySeq A) : bool :=
  match seq_items s with
  | [] => false
  | _ :: _ => true
  end.

Definition int_truthy (n : option Z) : bool :=
  match n with
  | Some n => negb (n =? 0)
  | None => false
  end.

(** [s == o] for a string [s] and an optional string [o]. *)
Definition str_eq_opt (s : string) (o : option string) : bool :=
  match o with
  | Some t => String.eqb s t
  | None => false
  end.

(** [order == ('__key__',)]. *)
Definition is_key_order (order : PySeq string) : bool :=
  match order with
  | PyTuple [k] => String.eqb k "__key__"
  | _ => false
  end.

Definition is_None {A : Type} (o : option A) : bool :=
  match o with
  | None => true
  | Some _ => false
  end.

(** [m.key.namespace()]. *)
Definition key_namespace_of (m : PyObj) : Result string :=
  match m with
  | PModel mm =>
      match model_key mm with
      | Some k => Ok (key_namespace k)
      | None => Raise (AttributeError "namespace")
      end
  | PClass _ => Raise (AttributeError "namespace")
  | PValue _ => Raise (AttributeError "key")
  end.

(** [_get_operator(comp)(get_model_property(m, name), value)]. *)
Definition eval_filter (m : PyObj) (f : Filter) : Result bool :=
  let '(name, comp, value) := f in
  op <- _get_operator comp ;;
  v <- get_model_property m name ;;
  op v value.

(** [del l[n:]]. *)
Definition del_from {A : Type} (n : Z) (l : list A) : list A :=
  if n <? 0
  then firstn (Z.to_nat (Z.max (Z.of_nat (List.length l) + n) 0)) l
  else firstn (Z.to_nat n) l.

Definition kind_pass (query : Query) (model_list : list PyObj)
  : Result (list PyObj) :=
  if str_truthy (q_kind query)
  then filterM (fun m => k <- get_model_kind m ;; Ok (str_eq_opt k (q_kind query)))
               model_list
  else Ok model_list.

Definition namespace_pass (query : Query) (model_list : list PyObj)
  : Result (list PyObj) :=
  if str_truthy (q_namespace query)
  then filterM (fun m => ns <- key_namespace_of m ;;
                         Ok (str_eq_opt ns (q_namespace query)))
               model_list
  else Ok model_list.

Definition filters_pass (query : Query) (model_list : list PyObj)
  : Result (list PyObj) :=
  if seq_truthy (q_filters query)
  then filterM (fun m => py_all (eval_filter m) (seq_items (q_filters query)))
               model_list
  else Ok model_list.

(** [for order in orders: _sort_by_property_name(model_list, order)]. *)
Fixpoint sort_passes (orders : list string) (model_list : list PyObj)
  : Result (list PyObj) :=
  match orders with
  | [] => Ok model_list
  | order :: r =>
      model_list <- _sort_by_property_name model_list order ;;
      sort_passes r model_list
  end.

Definition order_pass (query : Query) (model_list : list PyObj)
  : Result (list PyObj) :=
  if seq_truthy (q_order query)
  then sort_passes (rev (seq_items (q_order query))) model_list
  else Ok model_list.

Definition limit_pass (query : Query) (model_list : list PyObj) : list PyObj :=
  if int_truthy (q_limit query)
  then match q_limit query with
       | Some n => del_from n model_list
       | None => model_list
       end
  else model_list.

Definition key_order_message : string :=
  "Query(kind=None) must also have order=('__key__',)".

(** The list after the call, or the exception that the call raises. *)
Definition apply_query_to_models (query : Query) (model_list : list PyObj)
  : Result (list PyObj) :=
  if is_None (q_kind query) && negb (is_key_order (q_order query))
  then Raise (ValueError key_order_message)
  else
    model_list <- kind_pass query model_list ;;
    model_list <- namespace_pass query model_list ;;
    model_list <- filters_pass query model_list ;;
    model_list <- order_pass query model_list ;;
    Ok (limit_pass query model_list).

(* ------------------------------------------------------------------ *)
(** ** The sort that the specification describes

    A stable sort by one "comes before" test, and the lexicographic test
    for a list of signed order keys.  The order on values is the total
    order that agrees with [py_compare] wherever Python defines one. *)

Definition keyid_compare (i j : KeyId) : comparison :=
  match i, j with
  | IdInt a, IdInt b => a ?= b
  | IdInt _, IdName _ => Lt
  | IdName _, IdInt _ => Gt
  | IdName s, IdName t => String.compare s t
  end.

Definition pair_compare (p q : string * KeyId) : comparison :=
  match String.compare (fst p) (fst q) with
  | Eq => keyid_compare (snd p) (snd q)
  | c => c
  end.

(** Lexicographic comparison of two sequences; a proper prefix is smaller. *)
Fixpoint seq_compare {A : Type} (cmp : A -> A -> comparison) (l1 l2 : list A)
  : comparison :=
  match l1, l2 with
  | [], [] => Eq
  | [], _ :: _ => Lt
  | _ :: _, [] => Gt
  | p :: r1, q :: r2 =>
      match cmp p q with
      | Eq => seq_compare cmp r1 r2
      | c => c
      end
  end.

Definition pairs_compare : list (string * KeyId) -> list (string * KeyId) -> comparison :=
  seq_compare pair_compare.

Definition key_compare (k1 k2 : Key) : comparison :=
  match String.compare (key_app k1) (key_app k2) with
  | Eq =>
      match String.compare (key_namespace k1) (key_namespace k2) with
      | Eq => pairs_compare (key_pairs k1) (key_pairs k2)
      | c => c
      end
  | c => c
  end.

Definition value_compare (a b : Value) : comparison :=
  match a, b with
  | VNone, VNone => Eq
  | VNone, _ => Lt
  | _, VNone => Gt
  | VInt x, VInt y => x ?= y
  | VInt _, _ => Lt
  | _, VInt _ => Gt
  | VStr s, VStr t => String.compare s t
  | VStr _, _ => Lt
  | _, VStr _ => Gt
  | VKey k1, VKey k2 => key_compare k1 k2
  end.

Definition value_ltb (a b : Value) : bool := is_lt (value_compare a b).

(** Stable insertion sort by a "comes before" test. *)
Fixpoint insert_by {A : Type} (before : A -> A -> bool) (x : A) (l : list A)
  : list A :=
  match l with
  | [] => [x]
  | y :: r => if before y x then y :: insert_by before x r else x :: y :: r
  end.

Fixpoint stable_sort {A : Type} (before : A -> A -> bool) (l : list A) : list A :=
  match l with
  | [] => []
  | x :: r => insert_by before x (stable_sort before r)
  end.

(** The value a model is sorted by under a property name. *)
Definition sort_value (m : PyObj) (name : string) : Value :=
  match get_model_property m name with
  | Ok v => v
  | Raise _ => VNone
  end.

(** One signed order key: ascending by the property, or descending when
    the key starts with [-]. *)
Definition key_before (order : string) (a b : PyObj) : bool :=
  let (reverse, name) := strip_sign order in
  if reverse
  then value_ltb (sort_value b name) (sort_value a name)
  else value_ltb (sort_value a name) (sort_value b name).

(** Lexicographic order by the keys in listed priority: the first key
    decides, later keys break ties. *)
Fixpoint lex_before (orders : list string) (a b : PyObj) : bool :=
  match orders with
  | [] => false
  | k :: r => key_before k a b || (negb (key_before k b a) && lex_before r a b)
  end.

Definition lexicographic_stable_sort (orders : list string) (l : list PyObj)
  : list PyObj :=
  stable_sort (lex_before orders) l.

(** Two elements are tied when neither comes before the other. *)
Definition tied {A : Type} (before : A -> A -> bool) (a b : A) : bool :=
  negb (before a b) && negb (before b a).

(** A strict weak order, as a boolean test. *)
Record StrictWeak {A : Type} (before : A -> A -> bool) : Prop := {
  sw_irrefl : forall a, before a a = false;
  sw_trans : forall a b c,
      before a b = true -> before b c = true -> before a c = true;
  sw_negtrans : forall a b c,
      before a b = false -> before b c = false -> before a c = false
}.

(** A three-way comparison that is a total order. *)
Record TotalCmp {A : Type} (cmp : A -> A -> comparison) : Prop := {
  tc_eq : forall a b, cmp a b = Eq -> a = b;
  tc_refl : forall a, cmp a a = Eq;
  tc_antisym : forall a b, cmp b a = CompOpp (cmp a b);
  tc_trans : forall a b c, cmp a b = Lt -> cmp b c = Lt -> cmp a c = Lt
}.

(** Lexicographic combination of two comparisons on a pair. *)
Definition lex_compare {A B : Type} (c1 : A -> A -> comparison)
    (c2 : B -> B -> comparison) (p q : A * B) : comparison :=
  match c1 (fst p) (fst q) with
  | Eq => c2 (snd p) (snd q)
  | c => c
  end.

(** Lexicographic combination of two "comes before" tests: [primary]
    decides, [secondary] breaks its ties. *)
Definition lex2 {A : Type} (primary secondary : A -> A -> bool) (a b : A) : bool :=
  primary a b || (negb (primary b a) && secondary a b).

(** Sortedness for a "comes before" test: no later element comes before
    an earlier one. *)
Definition sorted_by {A : Type} (before : A -> A -> bool) (l : list A) : Prop :=
  StronglySorted (fun a b => before b a = false) l.

(** The exceptions a computation may raise all satisfy [P]. *)
Definition raises_only {A : Type} (P : Exc -> Prop) (r : Result A) : Prop :=
  match r with
  | Ok _ => True
  | Raise e => P e
  end.

(** Every model can be sorted by every key of [orders]: the properties
    exist and, per key, any two values are comparable. *)
Definition sortable (orders : list string) (l : list PyObj) : Prop :=
  forall k, In k orders ->
    (forall m, In m l ->
       exists v, get_model_property m (snd (strip_sign k)) = Ok v) /\
    (forall a b, In a l -> In b l ->
       exists c, py_compare (sort_value a (snd (strip_sign k)))
                            (sort_value b (snd (strip_sign k))) = Ok c).

(* ------------------------------------------------------------------ *)
(** ** Example data: three entities of kind A with an integer score *)

Definition class_A : ModelClass := mkClass "A" "A".

Definition entity (id score : Z) : PyObj :=
  PModel (mkModel class_A
            (Some (mkKey "app" EmptyString [] "A" (IdInt id)))
            [("score", VInt score)]).

Definition example_entities : list PyObj :=
  [entity 2 5; entity 1 5; entity 3 9].

(* ------------------------------------------------------------------ *)
(** ** The module's interface

    The functions that jobs/job_utils.py defines at top level, in source
    order, with the argument and result types of their docstrings. *)

Inductive ModuleFunction : Type :=
| F_clone_model
| F_get_model_key
| F_get_model_kind
| F_get_model_id
| F_get_model_property
| F_get_beam_entity_from_model
| F_get_model_from_beam_entity
| F_get_beam_query_from_ndb_query
| F_apply_query_to_models
| F__get_beam_filters_from_ndb_filter_node
| F__get_beam_order_from_ndb_order
| F__sort_by_property_name
| F__get_operator.



Definition function_name (f : ModuleFunction) : string :=
  match f with
  | F_clone_model => "clone_model"
  | F_get_model_key => "get_model_key"
  | F_get_model_kind => "get_model_kind"
  | F_get_model_id => "get_model_id"
  | F_get_model_property => "get_model_property"
  | F_get_beam_entity_from_model => "get_beam_entity_from_model"
  | F_get_model_from_beam_entity => "get_model_from_beam_entity"
  | F_get_beam_query_from_ndb_query => "get_beam_query_from_ndb_query"
  | F_apply_query_to_models => "apply_query_to_models"
  | F__get_beam_filters_from_ndb_filter_node =>
      "_get_beam_filters_from_ndb_filter_node"
  | F__get_beam_order_from_ndb_order => "_get_beam_order_from_ndb_order"
  | F__sort_by_property_name => "_sort_by_property_name"
  | F__get_operator => "_get_operator"
  end.




(** A name without a leading underscore is public. *)
Definition is_public (f : ModuleFunction) : bool :=
  match function_name f with
  | String "_"%char _ => false
  | _ => true
  end.


(* ------------------------------------------------------------------ *)
(** ** Notions used to state the properties *)

(** Functional updates of a query. *)
Definition with_namespace (query : Query) (namespace : option string) : Query :=
  mkQuery (q_kind query) namespace (q_filters query) (q_order query)
          (q_limit query).

Definition with_limit (query : Query) (limit : option Z) : Query :=
  mkQuery (q_kind query) (q_namespace query) (q_filters query) (q_order query)
          limit.

(** A model satisfies a filter when the comparison evaluates to true. *)
Definition satisfies (m : PyObj) (f : Filter) : bool :=
  match eval_filter m f with
  | Ok true => true
  | _ => false
  end.

Definition satisfies_all (filters : list Filter) (m : PyObj) : bool :=
  forallb (satisfies m) filters.

(** [needle in haystack]. *)
Definition mentions (haystack needle : string) : bool :=
  match String.index 0 needle haystack with
  | Some _ => true
  | None => false
  end.

(** Conversion to the flat representation and back. *)
Definition round_trip (project_id app_id : string)
    (registry : list (string * ModelClass)) (model : Model) : Result Model :=
  beam_entity <- get_beam_entity_from_model project_id model ;;
  get_model_from_beam_entity app_id registry beam_entity.

(** The flat triple of one comparison. *)
Definition flat_filter (c : Comparison) : Filter :=
  (cmp_name c, _OPERATORS_INVERSE (cmp_op c), cmp_value c).

(** The order keys that an ndb order specification lists, first priority
    first. *)
Definition order_list (o : Order) : list PropertyOrder :=
  match o with
  | SingleOrder p => [p]
  | CompositeOrder os => os
  end.

(** The validation error of [apply_query_to_models]. *)
Definition not_key_order_error (e : Exc) : Prop :=
  e <> ValueError key_order_message.

(** A model that is not saved yet: it has no key. *)
Definition keyless_model : PyObj :=
  PModel (mkModel class_A None [("score", VInt 1)]).



(** A key as the tuple that key comparison compares. *)
Definition key_tuple (k : Key) : string * (string * list (string * KeyId)) :=
  (key_app k, (key_namespace k, key_pairs k)).

(** The sort key of an element, once [key] has returned for it. *)
Definition key_of {A : Type} (key : A -> Result Value) (x : A) : Value :=
  match key x with
  | Ok v => v
  | Raise _ => VNone
  end.

(** The "comes before" test of a sort by [key], forward or reverse. *)
Definition keyed_before {A : Type} (key : A -> Result Value) (reverse : bool)
    (a b : A) : bool :=
  if reverse then value_ltb (key_of key b) (key_of key a)
  else value_ltb (key_of key a) (key_of key b).

(* ------------------------------------------------------------------ *)
(** ** clone_model *)

(** Truth value of an id: [0] and the empty name are falsy. *)
Definition keyid_truthy (i : KeyId) : bool :=
  match i with
  | IdInt n => negb (n =? 0)
  | IdName (String _ _) => true
  | IdName EmptyString => false
  end.

(** [d.pop(name, None)] leaves the dictionary without [name]. *)
Definition dict_remove (name : string) (d : list (string * Value))
  : list (string * Value) :=
  filter (fun nv => negb (String.eqb (fst nv) name)) d.

Section CloneModel.

(** The application id that ndb gives to the key of a newly built model. *)
Variable APPLICATION_ID : string.

(** [cls(id=model_id, **props)] for a class with the properties
    [property_names], where [model_id] may be [None].  A property called
    [id] would be a second value for the keyword [id]; a keyword that is
    no property of the class has no attribute to set; without an id the
    new model has no key.  (The constructor keywords [key], [parent],
    [app] and [namespace] are not modelled.) *)
Definition construct_model (cls : ModelClass) (property_names : list string)
    (model_id : option KeyId) (props : list (string * Value)) : Result Model :=
  if has_name "id" props
  then Raise (TypeError "got multiple values for keyword argument 'id'")
  else
    match find (fun nv => negb (existsb (String.eqb (fst nv)) property_names))
               props with
    | Some nv => Raise (AttributeError (fst nv))
    | None =>
        Ok (mkModel cls
              (option_map
                 (fun i =>
                    mkKey APPLICATION_ID EmptyString [] (class_kind cls) i)
                 model_id)
              props)
    end.

(** The id of the model as a key id, for [get_model_id(model)]. *)
Definition model_key_id (model : PyObj) : Result (option KeyId) :=
  v <- get_model_id model ;;
  Ok (match model with
      | PModel m => option_map key_id (model_key m)
      | _ => None
      end).

(** The keyword arguments are given as the id (the value of the keyword
    [id], when there is one) and the dictionary of the other keywords.
    [new_values.pop('id', None) or get_model_id(model)]: a missing or falsy
    id falls back to the id of the model.  The properties of the class
    are those of the model; a non-model has no [_properties]. *)
Definition clone_model (model : PyObj) (new_id : option KeyId)
    (new_values : list (string * Value)) : Result Model :=
  model_id <-
    match new_id with
    | Some i => if keyid_truthy i then Ok (Some i) else model_key_id model
    | None => model_key_id model
    end ;;
  match model with
  | PModel m =>
      let cls := model_class m in
      let props := model_properties m in
      let props' := dict_update props (dict_remove "id" new_values) in
      construct_model cls (map fst props) model_id props'
  | _ => Raise (AttributeError "_properties")
  end.

End CloneModel.

(* ------------------------------------------------------------------ *)
(** ** Notions used to state further properties *)

(** The model is of the kind the query asks for. *)
Definition kind_matches (query : Query) (m : PyObj) : bool :=
  match get_model_kind m with
  | Ok k => str_eq_opt k (q_kind query)
  | Raise _ => false
  end.

(** The key of the model is in the namespace the query asks for. *)
Definition namespace_matches (query : Query) (m : PyObj) : bool :=
  match key_namespace_of m with
  | Ok ns => str_eq_opt ns (q_namespace query)
  | Raise _ => false
  end.

(** The model passes every filtering step that the query switches on. *)
Definition matches (query : Query) (m : PyObj) : bool :=
  (if str_truthy (q_kind query) then kind_matches query m else true)
  && (if str_truthy (q_namespace query) then namespace_matches query m
      else true)
  && (if seq_truthy (q_filters query)
      then satisfies_all (seq_items (q_filters query)) m
      else true).

(** The list in the order the query asks for. *)
Definition ordered (query : Query) (l : list PyObj) : list PyObj :=
  if seq_truthy (q_order query)
  then lexicographic_stable_sort (seq_items (q_order query)) l
  else l.



Definition supported_operators : list string := ["<"; "<="; "="; ">="; ">"].

Definition is_descending (o : PropertyOrder) : bool :=
  match direction o with
  | DESCENDING => true
  | ASCENDING => false
  end.

Definition starts_with_dash (s : string) : bool :=
  match s with
  | String "-"%char _ => true
  | _ => false
  end.

(** The exception is a [TypeError] or an [AttributeError]. *)
Definition is_type_or_attribute_error (e : Exc) : Prop :=
  match e with
  | TypeError _ | AttributeError _ => True
  | _ => False
  end.

(* ================================================================== *)
(** * Properties *)

(* ------------------------------------------------------------------ *)
(** ** Entity accessors *)




(* ------------------------------------------------------------------ *)
(** ** Query converter *)

(** C5. A single comparison node and a conjunction of comparison nodes are
    flattened into one (property, operator, value) triple per comparison,
    the operator being one of the five symbols; every other node raises
    [TypeError] with the message that names [!=], [IN] and [OR] and
    recommends several AND queries, and so does the conversion of a query
    that carries such a node. *)
Theorem filter_flattening_rejects_unsupported_nodes :
  forall (node : Node),
    match node with
    | FilterNode c =>
        _get_beam_filters_from_ndb_filter_node node = Ok [flat_filter c]
    | ConjunctionNode c1 c2 rest =>
        _get_beam_filters_from_ndb_filter_node node
        = Ok (map flat_filter (c1 :: c2 :: rest))
    | _ =>
        _get_beam_filters_from_ndb_filter_node node
        = Raise (TypeError forbidden_filters_message)
        /\ forall kind namespace orders,
            get_beam_query_from_ndb_query
              (mkNdbQuery kind namespace (Some node) orders)
            = Raise (TypeError forbidden_filters_message)
    end
    /\ (forall c, In (_OPERATORS_INVERSE (cmp_op c)) ["<"; "<="; "="; ">="; ">"])
    /\ mentions forbidden_filters_message "`!=`" = true
    /\ mentions forbidden_filters_message "`IN`" = true
    /\ mentions forbidden_filters_message "`OR`" = true
    /\ mentions forbidden_filters_message "use multiple AND queries" = true.
Proof.
  intro node. split.
  - destruct node; try reflexivity; split; reflexivity.
  - split; [|repeat split; vm_compute; reflexivity].
    intro c. destruct (cmp_op c); simpl; tauto.
Qed.

(** C4. The conversion succeeds unless the filter node is rejected, and
    on the flat query it returns: the order is exactly [('__key__',)] when
    the native query has no kind and no order specification; an order
    specification is kept, one signed name per key in the listed priority;
    with a kind and no order specification the order stays [None]. *)
Theorem default_order_rule :
  forall (query : NdbQuery),
    ((forall node, ndb_filters query = Some node ->
        exists fs, _get_beam_filters_from_ndb_filter_node node = Ok fs) ->
     exists q, get_beam_query_from_ndb_query query = Ok q)
    /\ forall q, get_beam_query_from_ndb_query query = Ok q ->
         (ndb_kind query = None -> ndb_orders query = None ->
          q_order q = PyTuple ["__key__"])
         /\ (forall o, ndb_orders query = Some o ->
             q_order q = PyTuple (map order_key (order_list o)))
         /\ (forall kind, ndb_kind query = Some kind ->
             ndb_orders query = None -> q_order q = PyNone)
         /\ q_kind q = ndb_kind query
         /\ q_namespace q = ndb_namespace query.
Proof.
  intro query. unfold get_beam_query_from_ndb_query. split.
  - intro Hf. destruct (ndb_filters query) as [node|]; simpl.
    + destruct (Hf node eq_refl) as [fs ->]. simpl. eauto.
    + eauto.
  - intros q H.
    destruct (match ndb_filters query with
              | Some node =>
                  fs <- _get_beam_filters_from_ndb_filter_node node ;;
                  Ok (PyList fs)
              | None => Ok PyNone
              end) as [filters|e]; simpl in H; [|discriminate].
    injection H as <-. simpl. repeat split.
    + intros -> ->. reflexivity.
    + intros o ->. destruct (ndb_kind query), o; reflexivity.
    + intros kind -> ->. reflexivity.
Qed.

Lemma default_order_rule_witness :
  get_beam_query_from_ndb_query
    (mkNdbQuery None None None
       (Some (CompositeOrder [mkOrder "score" DESCENDING;
                              mkOrder "id" ASCENDING])))
  = Ok (mkQuery None None PyNone (PyTuple ["-score"; "id"]) None)
  /\ q_order (mkQuery None None PyNone (PyTuple ["-score"; "id"]) None)
     = PyTuple ["-score"; "id"]
  /\ q_order (mkQuery None None PyNone (PyTuple ["__key__"]) None)
     = PyTuple ["__key__"].
Proof.
  split; [reflexivity|]. split.
  - destruct (default_order_rule
                (mkNdbQuery None None None
                   (Some (CompositeOrder [mkOrder "score" DESCENDING;
                                          mkOrder "id" ASCENDING]))))
      as [_ Hq].
    destruct (Hq _ eq_refl) as (_ & Ho & _).
    exact (Ho _ eq_refl).
  - destruct (default_order_rule (mkNdbQuery None None None None)) as [_ Hq].
    destruct (Hq _ eq_refl) as (Ho & _).
    exact (Ho eq_refl eq_refl).
Defined.

(* ------------------------------------------------------------------ *)
(** ** Which exceptions the evaluator can raise *)

Lemma raises_only_bind {A B : Type} (P : Exc -> Prop) (c : Result A)
    (k : A -> Result B) :
  raises_only P c -> (forall a, raises_only P (k a)) ->
  raises_only P (bind c k).
Proof. destruct c; simpl; auto. Qed.

Lemma raises_only_filterM {A : Type} (P : Exc -> Prop) (f : A -> Result bool)
    (l : list A) :
  (forall x, raises_only P (f x)) -> raises_only P (filterM f l).
Proof.
  intro Hf. induction l as [|x r IH]; simpl; [exact I|].
  apply raises_only_bind; [apply Hf|]. intro b.
  apply raises_only_bind; [exact IH|]. intro r'. exact I.
Qed.

Lemma raises_only_mapM {A B : Type} (P : Exc -> Prop) (f : A -> Result B)
    (l : list A) :
  (forall x, raises_only P (f x)) -> raises_only P (mapM f l).
Proof.
  intro Hf. induction l as [|x r IH]; simpl; [exact I|].
  apply raises_only_bind; [apply Hf|]. intro b.
  apply raises_only_bind; [exact IH|]. intro r'. exact I.
Qed.

Lemma raises_only_py_all {A : Type} (P : Exc -> Prop) (f : A -> Result bool)
    (l : list A) :
  (forall x, raises_only P (f x)) -> raises_only P (py_all f l).
Proof.
  intro Hf. induction l as [|x r IH]; simpl; [exact I|].
  apply raises_only_bind; [apply Hf|]. intros [|]; [exact IH | exact I].
Qed.

Lemma raises_only_insertM {A : Type} (P : Exc -> Prop)
    (lt : A -> A -> Result bool) (x : A) (l : list A) :
  (forall a b, raises_only P (lt a b)) -> raises_only P (insertM lt x l).
Proof.
  intro Hlt. induction l as [|y r IH]; simpl; [exact I|].
  apply raises_only_bind; [apply Hlt|]. intros [|]; [|exact I].
  apply raises_only_bind; [exact IH|]. intro r'. exact I.
Qed.

Lemma raises_only_sortM {A : Type} (P : Exc -> Prop)
    (lt : A -> A -> Result bool) (l : list A) :
  (forall a b, raises_only P (lt a b)) -> raises_only P (sortM lt l).
Proof.
  intro Hlt. induction l as [|x r IH]; simpl; [exact I|].
  apply raises_only_bind; [exact IH|]. intro r'.
  now apply raises_only_insertM.
Qed.

Lemma keyid_cmp_raises (i j : KeyId) :
  raises_only not_key_order_error (keyid_cmp i j).
Proof. destruct i, j; simpl; try exact I; discriminate. Qed.

Lemma pairs_cmp_raises (l1 l2 : list (string * KeyId)) :
  raises_only not_key_order_error (pairs_cmp l1 l2).
Proof.
  revert l2. induction l1 as [|p r1 IH]; intros [|q r2]; simpl; try exact I.
  apply raises_only_bind.
  - unfold pair_cmp. destruct (String.compare (fst p) (fst q));
      [apply keyid_cmp_raises | exact I | exact I].
  - intros [| |]; [apply IH | exact I | exact I].
Qed.

Lemma py_compare_raises (a b : Value) :
  raises_only not_key_order_error (py_compare a b).
Proof.
  destruct a, b; simpl; try exact I; try discriminate.
  unfold key_cmp.
  destruct (String.compare (key_app k) (key_app k0)); try exact I.
  destruct (String.compare (key_namespace k) (key_namespace k0)); try exact I.
  apply pairs_cmp_raises.
Qed.

Lemma py_lt_raises (a b : Value) :
  raises_only not_key_order_error (py_lt a b).
Proof.
  unfold py_lt. apply raises_only_bind; [apply py_compare_raises|].
  intro; exact I.
Qed.

Lemma get_model_property_raises (m : PyObj) (name : string) :
  raises_only not_key_order_error (get_model_property m name).
Proof.
  unfold get_model_property, get_model_id, get_model_key, getattr.
  destruct (String.eqb name "id"); [|destruct (String.eqb name "__key__")];
    destruct m as [m|c|v]; simpl; try exact I; try discriminate.
  - now destruct (model_key m).
  - destruct (String.eqb name "key"); [exact I|].
    destruct (assoc name (model_properties m)); [exact I | discriminate].
Qed.

Lemma eval_filter_raises (m : PyObj) (f : Filter) :
  raises_only not_key_order_error (eval_filter m f).
Proof.
  destruct f as [[name comp] value]. unfold eval_filter.
  assert (Hop : forall op : Value -> Value -> Result bool,
             (forall a b, raises_only not_key_order_error (op a b)) ->
             raises_only not_key_order_error
               (v <- get_model_property m name ;; op v value)).
  { intros op Hop. apply raises_only_bind;
      [apply get_model_property_raises | intro; apply Hop]. }
  assert (Hcmp : forall g : comparison -> bool, forall a b,
             raises_only not_key_order_error
               (c <- py_compare a b ;; Ok (g c))).
  { intros g a b. apply raises_only_bind;
      [apply py_compare_raises | intro; exact I]. }
  unfold _get_operator.
  repeat match goal with
         | |- context [if String.eqb comp ?s then _ else _] =>
             destruct (String.eqb comp s);
             [simpl; apply Hop; intros a b;
              first [apply Hcmp | exact I] |]
         end.
  simpl. unfold not_key_order_error. intro H. injection H as H.
  unfold unsupported_operator_message, key_order_message in H.
  simpl in H. discriminate H.
Qed.

Lemma sort_passes_raises (orders : list string) (l : list PyObj) :
  raises_only not_key_order_error (sort_passes orders l).
Proof.
  revert l. induction orders as [|k r IH]; intro l; simpl; [exact I|].
  apply raises_only_bind; [|exact IH].
  unfold _sort_by_property_name. destruct (strip_sign k) as [reverse name].
  unfold list_sort. apply raises_only_bind.
  - apply raises_only_mapM. intro x. apply raises_only_bind;
      [apply get_model_property_raises | intro; exact I].
  - intro keyed. apply raises_only_bind; [|intro; exact I].
    apply raises_only_sortM. intros a b. apply py_lt_raises.
Qed.

Lemma is_key_order_iff (order : PySeq string) :
  is_key_order order = true <-> order = PyTuple ["__key__"].
Proof.
  split.
  - destruct order as [|[|k [|k' r]]|l]; simpl; try discriminate.
    intro H. apply String.eqb_eq in H. now subst.
  - intros ->. reflexivity.
Qed.

(* ------------------------------------------------------------------ *)
(** ** Query evaluator *)

(** C3. With [kind = None], any order other than exactly the tuple
    [('__key__',)] makes [apply_query_to_models] raise the [ValueError]
    with the message about the key order, whatever the list holds (the
    check is the first statement); with exactly that order the call never
    raises this error. *)
Theorem apply_requires_key_order_without_kind :
  forall (query : Query) (model_list : list PyObj),
    q_kind query = None ->
    (q_order query <> PyTuple ["__key__"] ->
     apply_query_to_models query model_list
     = Raise (ValueError key_order_message))
    /\ (q_order query = PyTuple ["__key__"] ->
        apply_query_to_models query model_list
        <> Raise (ValueError key_order_message)).
Proof.
  intros query model_list Hkind. unfold apply_query_to_models.
  rewrite Hkind. simpl. split.
  - intro Hne. destruct (is_key_order (q_order query)) eqn:E.
    + apply is_key_order_iff in E. contradiction.
    + reflexivity.
  - intros Ho. rewrite Ho. simpl.
    assert (H : raises_only not_key_order_error
                  (model_list <- kind_pass query model_list ;;
                   model_list <- namespace_pass query model_list ;;
                   model_list <- filters_pass query model_list ;;
                   model_list <- order_pass query model_list ;;
                   Ok (limit_pass query model_list))).
    { apply raises_only_bind.
      { unfold kind_pass. rewrite Hkind. exact I. }
      intro l1. apply raises_only_bind.
      { unfold namespace_pass. destruct (str_truthy (q_namespace query));
          [|exact I].
        apply raises_only_filterM. intro m. apply raises_only_bind;
          [|intro; exact I].
        destruct m as [m|c|v]; simpl; try discriminate.
        destruct (model_key m); [exact I | discriminate]. }
      intro l2. apply raises_only_bind.
      { unfold filters_pass. destruct (seq_truthy (q_filters query));
          [|exact I].
        apply raises_only_filterM. intro m. apply raises_only_py_all.
        apply eval_filter_raises. }
      intro l3. apply raises_only_bind; [|intro; exact I].
      unfold order_pass. destruct (seq_truthy (q_order query)); [|exact I].
      apply sort_passes_raises. }
    intro E. rewrite E in H. apply H. reflexivity.
Qed.

Lemma apply_requires_key_order_without_kind_witness :
  apply_query_to_models (mkQuery None None PyNone (PyList ["__key__"]) None)
                        example_entities
  = Raise (ValueError key_order_message)
  /\ apply_query_to_models (mkQuery None None PyNone (PyTuple ["__key__"]) None)
                           example_entities
     <> Raise (ValueError key_order_message).
Proof.
  split.
  - apply (apply_requires_key_order_without_kind
             (mkQuery None None PyNone (PyList ["__key__"]) None)
             example_entities eq_refl).
    simpl. discriminate.
  - apply (apply_requires_key_order_without_kind
             (mkQuery None None PyNone (PyTuple ["__key__"]) None)
             example_entities eq_refl).
    reflexivity.
Defined.

(** C10. An empty-string namespace switches the namespace pass off: the
    pass returns the list as it is, also where a model has no key, and the
    whole call behaves as with [namespace = None].  The same holds for the
    kind pass and an empty-string kind.  Each of the two passes runs only
    for a truthy value. *)
Theorem empty_namespace_or_kind_filters_nothing :
  forall (query : Query) (model_list : list PyObj),
    (q_namespace query = Some EmptyString ->
     namespace_pass query model_list = Ok model_list
     /\ apply_query_to_models query model_list
        = apply_query_to_models (with_namespace query None) model_list)
    /\ (q_kind query = Some EmptyString ->
        kind_pass query model_list = Ok model_list)
    /\ (str_truthy (q_namespace query) = false ->
        namespace_pass query model_list = Ok model_list)
    /\ (str_truthy (q_kind query) = false ->
        kind_pass query model_list = Ok model_list).
Proof.
  intros query model_list. split; [|split; [|split]].
  - intro H. split.
    + unfold namespace_pass. now rewrite H.
    + unfold apply_query_to_models, with_namespace, kind_pass,
        namespace_pass, filters_pass, order_pass, limit_pass.
      simpl. rewrite H. reflexivity.
  - intro H. unfold kind_pass. now rewrite H.
  - intro H. unfold namespace_pass. now rewrite H.
  - intro H. unfold kind_pass. now rewrite H.
Qed.

Lemma empty_namespace_or_kind_filters_nothing_witness :
  namespace_pass (mkQuery (Some "A") (Some EmptyString) PyNone PyNone None)
                 [keyless_model; entity 2 5]
  = Ok [keyless_model; entity 2 5]
  /\ kind_pass (mkQuery (Some EmptyString) None PyNone PyNone None)
               [PValue VNone; entity 2 5]
     = Ok [PValue VNone; entity 2 5].
Proof.
  split.
  - destruct (empty_namespace_or_kind_filters_nothing
                (mkQuery (Some "A") (Some EmptyString) PyNone PyNone None)
                [keyless_model; entity 2 5]) as (H & _).
    destruct (H eq_refl) as [Hpass _]. exact Hpass.
  - destruct (empty_namespace_or_kind_filters_nothing
                (mkQuery (Some EmptyString) None PyNone PyNone None)
                [PValue VNone; entity 2 5]) as (_ & H & _).
    exact (H eq_refl).
Defined.

Lemma firstn_length_le_Z {A : Type} (n : Z) (l : list A) :
  0 <= n -> Z.of_nat (List.length (firstn (Z.to_nat n) l)) <= n.
Proof.
  intro Hn. rewrite length_firstn. lia.
Qed.

(** C7, as the code has it.  The limit step runs for a truthy limit only.
    A positive limit [n] leaves the first [n] elements of the list in its
    final sorted order, hence at most [n]; a limit of [0] leaves the list
    as it is. *)
Theorem limit_truncates_when_positive :
  forall (query : Query) (model_list : list PyObj) (n : Z),
    q_limit query = Some n ->
    (0 < n ->
     apply_query_to_models query model_list
     = (sorted <- apply_query_to_models (with_limit query None) model_list ;;
        Ok (firstn (Z.to_nat n) sorted))
     /\ forall l', apply_query_to_models query model_list = Ok l' ->
          Z.of_nat (List.length l') <= n)
    /\ (n = 0 ->
        apply_query_to_models query model_list
        = apply_query_to_models (with_limit query None) model_list).
Proof.
  intros query model_list n Hn.
  assert (Hshape : forall f : list PyObj -> list PyObj,
             (forall l, limit_pass query l = f l) ->
             apply_query_to_models query model_list
             = (sorted <- apply_query_to_models (with_limit query None)
                            model_list ;;
                Ok (f sorted))).
  { intros f Hf.
    unfold apply_query_to_models, with_limit, kind_pass, namespace_pass,
      filters_pass, order_pass. simpl.
    destruct (is_None (q_kind query) && negb (is_key_order (q_order query)));
      [reflexivity|].
    match goal with
    | |- bind ?c _ = _ => destruct c as [l1|e]; simpl; [|reflexivity]
    end.
    match goal with
    | |- bind ?c _ = _ => destruct c as [l2|e]; simpl; [|reflexivity]
    end.
    match goal with
    | |- bind ?c _ = _ => destruct c as [l3|e]; simpl; [|reflexivity]
    end.
    match goal with
    | |- bind ?c _ = _ => destruct c as [l4|e]; simpl; [|reflexivity]
    end.
    now rewrite Hf. }
  split.
  - intro Hpos.
    assert (Hlim : forall l, limit_pass query l = firstn (Z.to_nat n) l).
    { intro l. unfold limit_pass, int_truthy, del_from. rewrite Hn.
      destruct (Z.eqb_spec n 0); [lia|]. simpl.
      destruct (Z.ltb_spec n 0); [lia | reflexivity]. }
    split; [exact (Hshape _ Hlim)|].
    intros l'. rewrite (Hshape _ Hlim).
    destruct (apply_query_to_models (with_limit query None) model_list);
      simpl; [|discriminate].
    intro H. injection H as <-. apply firstn_length_le_Z. lia.
  - intros ->.
    rewrite (Hshape (fun l => l)).
    + now destruct (apply_query_to_models (with_limit query None) model_list).
    + intro l. unfold limit_pass. now rewrite Hn.
Qed.

Lemma limit_truncates_when_positive_witness :
  apply_query_to_models
    (mkQuery (Some "A") None PyNone (PyTuple ["-score"; "id"]) (Some 2))
    example_entities
  = Ok [entity 3 9; entity 1 5].
Proof.
  destruct (limit_truncates_when_positive
              (mkQuery (Some "A") None PyNone (PyTuple ["-score"; "id"])
                       (Some 2))
              example_entities 2 eq_refl) as [H _].
  destruct (H ltac:(lia)) as [-> _]. reflexivity.
Defined.

(** C7 as stated fails for a limit of zero: the limit is present, yet
    all three entities are left in the list. *)
Lemma limit_zero_leaves_list_untruncated :
  q_limit (mkQuery (Some "A") None PyNone PyNone (Some 0)) = Some 0
  /\ apply_query_to_models (mkQuery (Some "A") None PyNone PyNone (Some 0))
                           example_entities
     = Ok example_entities
  /\ ~ (Z.of_nat (List.length example_entities) <= 0).
Proof.
  split; [reflexivity|]. split; [reflexivity|]. simpl. lia.
Qed.

(* ------------------------------------------------------------------ *)
(** ** The predicate filter *)

Lemma filterM_filter {A : Type} (f : A -> Result bool) (g : A -> bool)
    (l l' : list A) :
  (forall x b, f x = Ok b -> b = g x) ->
  filterM f l = Ok l' -> l' = filter g l.
Proof.
  intro Hfg. revert l'. induction l as [|x r IH]; intros l' H; simpl in *.
  - now injection H as <-.
  - destruct (f x) as [b|e] eqn:Ex; simpl in H; [|discriminate].
    destruct (filterM f r) as [r'|e]; simpl in H; [|discriminate].
    injection H as <-. rewrite <- (Hfg x b Ex), <- (IH r' eq_refl).
    reflexivity.
Qed.

Lemma filterM_total {A : Type} (f : A -> Result bool) (l : list A) :
  (forall x, In x l -> exists b, f x = Ok b) ->
  exists l', filterM f l = Ok l'.
Proof.
  induction l as [|x r IH]; intro H; simpl; [eauto|].
  destruct (H x (or_introl eq_refl)) as [b ->]. simpl.
  destruct IH as [r' ->]; [intros y Hy; apply H; now right|].
  simpl. eauto.
Qed.

Lemma py_all_satisfies (m : PyObj) (filters : list Filter) (b : bool) :
  py_all (eval_filter m) filters = Ok b -> b = satisfies_all filters m.
Proof.
  unfold satisfies_all. induction filters as [|f r IH]; simpl; intro H.
  - now injection H as <-.
  - unfold satisfies at 1.
    destruct (eval_filter m f) as [[|]|e]; simpl in *;
      [auto | now injection H as <- | discriminate].
Qed.

Lemma py_all_total (m : PyObj) (filters : list Filter) :
  (forall f, In f filters -> exists b, eval_filter m f = Ok b) ->
  exists b, py_all (eval_filter m) filters = Ok b.
Proof.
  induction filters as [|f r IH]; intro H; simpl; [eauto|].
  destruct (H f (or_introl eq_refl)) as [[|] ->]; simpl; [|eauto].
  apply IH. intros g Hg. apply H. now right.
Qed.

Lemma satisfies_all_iff (filters : list Filter) (m : PyObj) :
  satisfies_all filters m = true
  <-> Forall (fun f => eval_filter m f = Ok true) filters.
Proof.
  unfold satisfies_all. rewrite forallb_forall, Forall_forall.
  split; intros H f Hf; specialize (H f Hf); unfold satisfies in *.
  - now destruct (eval_filter m f) as [[|]|].
  - now rewrite H.
Qed.

(** C6. With a non-empty filter sequence, the predicate-filter step keeps
    exactly the models for which every filter evaluates to true, in their
    order; it returns whenever every filter can be evaluated on every
    model.  A filter is evaluated by looking the property up with
    [get_model_property], so a filter on ["id"] compares the model's id
    and a filter on ["__key__"] compares its key. *)
Theorem predicate_filter_is_conjunction :
  forall (query : Query) (model_list : list PyObj),
    seq_truthy (q_filters query) = true ->
    (forall l', filters_pass query model_list = Ok l' ->
       l' = filter (satisfies_all (seq_items (q_filters query))) model_list)
    /\ ((forall m f, In m model_list -> In f (seq_items (q_filters query)) ->
           exists b, eval_filter m f = Ok b) ->
        filters_pass query model_list
        = Ok (filter (satisfies_all (seq_items (q_filters query))) model_list))
    /\ (forall m, satisfies_all (seq_items (q_filters query)) m = true
          <-> Forall (fun f => eval_filter m f = Ok true)
                     (seq_items (q_filters query)))
    /\ (forall m name comp value,
          eval_filter m (name, comp, value)
          = (op <- _get_operator comp ;;
             v <- get_model_property m name ;; op v value))
    /\ (forall m comp value,
          eval_filter m ("id", comp, value)
          = (op <- _get_operator comp ;; v <- get_model_id m ;; op v value))
    /\ (forall m comp value,
          eval_filter m ("__key__", comp, value)
          = (op <- _get_operator comp ;; v <- get_model_key m ;; op v value)).
Proof.
  intros query model_list Hne. unfold filters_pass. rewrite Hne.
  assert (Hcond : forall l',
             filterM (fun m => py_all (eval_filter m)
                                      (seq_items (q_filters query)))
                     model_list = Ok l' ->
             l' = filter (satisfies_all (seq_items (q_filters query)))
                         model_list).
  { intro l'. apply filterM_filter. intros m b. apply py_all_satisfies. }
  split; [exact Hcond|]. split.
  - intro Hdef.
    destruct (filterM_total
                (fun m => py_all (eval_filter m) (seq_items (q_filters query)))
                model_list) as [l' Hl'].
    { intros m Hm. apply py_all_total. intros f Hf. now apply Hdef. }
    rewrite Hl'. f_equal. now apply Hcond.
  - split; [intro m; apply satisfies_all_iff|].
    repeat split; reflexivity.
Qed.

Lemma predicate_filter_is_conjunction_witness :
  filters_pass
    (mkQuery (Some "A") None
             (PyList [("score", "=", VInt 5); ("id", ">", VInt 1)])
             PyNone None)
    example_entities
  = Ok [entity 2 5].
Proof.
  destruct (predicate_filter_is_conjunction
              (mkQuery (Some "A") None
                       (PyList [("score", "=", VInt 5); ("id", ">", VInt 1)])
                       PyNone None)
              example_entities eq_refl) as (_ & H & _).
  rewrite H; [reflexivity|].
  intros m f Hm Hf. simpl in Hm, Hf.
  destruct Hm as [<-|[<-|[<-|[]]]]; destruct Hf as [<-|[<-|[]]];
    vm_compute; eauto.
Defined.

(* ------------------------------------------------------------------ *)
(** ** Entity converter *)

Lemma parse_path_flat_pairs (ps : list (string * KeyId)) :
  parse_path (flat_pairs ps) = Ok ps.
Proof.
  induction ps as [|[k i] r IH]; [reflexivity|].
  destruct i; simpl; rewrite IH; reflexivity.
Qed.

Lemma to_client_key_flat (k : Key) (project_id : string) :
  to_client_key (mkBeamKey (flat k) project_id)
  = Ok (mkKey project_id EmptyString (key_parent k) (key_kind k) (key_id k)).
Proof.
  unfold to_client_key, flat. simpl. rewrite parse_path_flat_pairs. simpl.
  unfold key_pairs. rewrite rev_unit, rev_involutive. reflexivity.
Qed.

Lemma dict_update_empty (d : list (string * Value)) : dict_update [] d = d.
Proof. unfold dict_update. simpl. apply app_nil_r. Qed.

(** C2, as the code has it.  For a model that has a key (of the kind of
    its class, as ndb enforces), no property called [id], and a class that
    the registry returns for its kind, converting to a Beam entity and back
    succeeds and gives a model of the same class with the same kind, the
    same id and the same property values. *)
Theorem round_trip_preserves_kind_id_properties :
  forall (project_id app_id : string) (registry : list (string * ModelClass))
         (model : Model) (k : Key),
    model_key model = Some k ->
    key_kind k = class_kind (model_class model) ->
    has_name "id" (model_properties model) = false ->
    _lookup_model registry (class_kind (model_class model))
    = Ok (model_class model) ->
    exists model',
      round_trip project_id app_id registry model = Ok model'
      /\ get_model_kind (PModel model') = get_model_kind (PModel model)
      /\ get_model_id (PModel model') = get_model_id (PModel model)
      /\ model_properties model' = model_properties model
      /\ model_class model' = model_class model.
Proof.
  intros project_id app_id registry model k Hkey Hkind Hid Hreg.
  unfold round_trip, get_beam_entity_from_model. rewrite Hkey. simpl.
  unfold get_model_from_beam_entity, set_properties. simpl.
  rewrite to_client_key_flat. simpl. rewrite Hkind, Hreg. simpl.
  unfold new_model. rewrite dict_update_empty, Hid.
  eexists. split; [reflexivity|]. simpl. rewrite Hkey. auto.
Qed.

Lemma round_trip_preserves_kind_id_properties_witness :
  exists model',
    round_trip "oppia" "app" [("A", class_A)]
      (mkModel class_A (Some (mkKey "app" "ns" [("P", IdName "p")] "A" (IdInt 2)))
               [("score", VInt 5)])
    = Ok model'
    /\ get_model_id (PModel model') = Ok (VInt 2)
    /\ model_properties model' = [("score", VInt 5)].
Proof.
  destruct (round_trip_preserves_kind_id_properties
              "oppia" "app" [("A", class_A)]
              (mkModel class_A
                 (Some (mkKey "app" "ns" [("P", IdName "p")] "A" (IdInt 2)))
                 [("score", VInt 5)])
              _ eq_refl eq_refl eq_refl eq_refl)
    as (model' & H & _ & Hid & Hprops & _).
  exists model'. auto.
Defined.

(** C2 as stated fails for a model without a key: its class is
    registered, yet the conversion to a Beam entity raises. *)
Lemma round_trip_fails_without_key :
  _lookup_model [("A", class_A)] (class_kind class_A) = Ok class_A
  /\ round_trip "oppia" "app" [("A", class_A)]
       (mkModel class_A None [("score", VInt 1)])
     = Raise (AttributeError "flat").
Proof. split; reflexivity. Qed.

(* ------------------------------------------------------------------ *)
(** ** The module's interface *)



(* ------------------------------------------------------------------ *)
(** ** Stable sorting by a strict weak order *)

Section StableSort.

Context {A : Type}.
Variable before : A -> A -> bool.

Lemma insert_by_In (x y : A) (l : list A) :
  In y (insert_by before x l) <-> y = x \/ In y l.
Proof.
  induction l as [|z r IH]; simpl.
  - intuition.
  - destruct (before z x); simpl; rewrite ?IH; intuition.
Qed.

Lemma stable_sort_In (y : A) (l : list A) :
  In y (stable_sort before l) <-> In y l.
Proof.
  induction l as [|x r IH]; simpl; [tauto|].
  rewrite insert_by_In, IH. intuition.
Qed.

Lemma insert_by_ext (g : A -> A -> bool) (x : A) (l : list A) :
  (forall y, In y l -> before y x = g y x) ->
  insert_by before x l = insert_by g x l.
Proof.
  induction l as [|z r IH]; intro H; simpl; [reflexivity|].
  rewrite <- (H z (or_introl eq_refl)).
  destruct (before z x); [|reflexivity].
  f_equal. apply IH. intros y Hy. apply H. now right.
Qed.

Lemma stable_sort_ext (g : A -> A -> bool) (l : list A) :
  (forall a b, before a b = g a b) ->
  stable_sort before l = stable_sort g l.
Proof.
  intro H. induction l as [|x r IH]; simpl; [reflexivity|].
  rewrite IH. apply insert_by_ext. intros y _. apply H.
Qed.

Hypothesis SW : StrictWeak before.

Lemma before_asym (a b : A) : before a b = true -> before b a = false.
Proof.
  intro H. destruct (before b a) eqn:E; [|reflexivity].
  rewrite <- (sw_irrefl before SW a). symmetry.
  exact (sw_trans before SW a b a H E).
Qed.

Lemma tied_refl (a : A) : tied before a a = true.
Proof. unfold tied. now rewrite (sw_irrefl before SW). Qed.

Lemma tied_sym (a b : A) : tied before a b = tied before b a.
Proof. unfold tied. apply andb_comm. Qed.

Lemma tied_trans (a b c : A) :
  tied before a b = true -> tied before b c = true -> tied before a c = true.
Proof.
  unfold tied. rewrite !andb_true_iff, !negb_true_iff.
  intros [Hab Hba] [Hbc Hcb]. split.
  - exact (sw_negtrans before SW a b c Hab Hbc).
  - exact (sw_negtrans before SW c b a Hcb Hba).
Qed.

Lemma insert_by_sorted (x : A) (l : list A) :
  sorted_by before l -> sorted_by before (insert_by before x l).
Proof.
  unfold sorted_by. induction l as [|y r IH]; intro S; simpl.
  - constructor; constructor.
  - apply StronglySorted_inv in S. destruct S as [Sr Hy].
    destruct (before y x) eqn:E.
    + constructor; [now apply IH|].
      apply Forall_forall. intros b Hb. apply insert_by_In in Hb.
      destruct Hb as [->|Hb]; [now apply before_asym|].
      rewrite Forall_forall in Hy. now apply Hy.
    + constructor; [now constructor|].
      constructor; [exact E|].
      rewrite Forall_forall in *. intros b Hb.
      exact (sw_negtrans before SW b y x (Hy b Hb) E).
Qed.

Lemma stable_sort_sorted (l : list A) : sorted_by before (stable_sort before l).
Proof.
  induction l as [|x r IH]; simpl; [constructor|].
  now apply insert_by_sorted.
Qed.

Lemma filter_tied_insert_by (a x : A) (l : list A) :
  filter (tied before a) (insert_by before x l)
  = filter (tied before a) (x :: l).
Proof.
  induction l as [|y r IH]; [reflexivity|].
  simpl insert_by. destruct (before y x) eqn:E; [|reflexivity].
  simpl in *. rewrite IH.
  destruct (tied before a x) eqn:Ex, (tied before a y) eqn:Ey;
    try reflexivity.
  rewrite tied_sym in Ey.
  pose proof (tied_trans y a x Ey Ex) as T. unfold tied in T.
  rewrite E in T. discriminate.
Qed.

(** Stability: the elements tied with any [a] keep their order. *)
Lemma filter_tied_stable_sort (a : A) (l : list A) :
  filter (tied before a) (stable_sort before l) = filter (tied before a) l.
Proof.
  induction l as [|x r IH]; [reflexivity|].
  simpl stable_sort. rewrite filter_tied_insert_by. simpl. now rewrite IH.
Qed.

(** A sorted list is determined by the sublists of tied elements. *)
Lemma sorted_unique (l1 l2 : list A) :
  sorted_by before l1 -> sorted_by before l2 ->
  (forall a, filter (tied before a) l1 = filter (tied before a) l2) ->
  l1 = l2.
Proof.
  unfold sorted_by. revert l2.
  induction l1 as [|x l1 IH]; intros [|z l2] S1 S2 H.
  - reflexivity.
  - specialize (H z). simpl in H. rewrite tied_refl in H. discriminate.
  - specialize (H x). simpl in H. rewrite tied_refl in H. discriminate.
  - apply StronglySorted_inv in S1. destruct S1 as [S1 F1].
    apply StronglySorted_inv in S2. destruct S2 as [S2 F2].
    rewrite Forall_forall in F1, F2.
    assert (Hxz : tied before x z = true).
    { destruct (tied before x z) eqn:E; [reflexivity|exfalso].
      assert (Hx : In x l2).
      { pose proof (H x) as Hx. simpl in Hx. rewrite tied_refl, E in Hx.
        assert (I : In x (filter (tied before x) l2))
          by (rewrite <- Hx; now left).
        now apply filter_In in I. }
      assert (Hz : In z l1).
      { pose proof (H z) as Hz. simpl in Hz.
        rewrite tied_refl, (tied_sym z x), E in Hz.
        assert (I : In z (filter (tied before z) l1))
          by (rewrite Hz; now left).
        now apply filter_In in I. }
      unfold tied in E. rewrite (F1 z Hz), (F2 x Hx) in E. discriminate. }
    assert (Heq : x = z).
    { pose proof (H x) as Hx. simpl in Hx. rewrite tied_refl, Hxz in Hx.
      now injection Hx. }
    subst z. f_equal. apply IH; auto.
    intro a. specialize (H a). simpl in H.
    destruct (tied before a x); [now injection H | exact H].
Qed.

(** The stable sort is the only sorted list that keeps the order of tied
    elements. *)
Lemma stable_sort_unique (l l' : list A) :
  sorted_by before l' ->
  (forall a, filter (tied before a) l' = filter (tied before a) l) ->
  l' = stable_sort before l.
Proof.
  intros S H. apply sorted_unique; [exact S | apply stable_sort_sorted |].
  intro a. now rewrite filter_tied_stable_sort.
Qed.

End StableSort.

(** *** Reverse sorts and sorts by two keys *)

Lemma StrictWeak_flip {A : Type} (before : A -> A -> bool) :
  StrictWeak before -> StrictWeak (fun a b => before b a).
Proof.
  intros [I T N]. constructor.
  - intro a. apply I.
  - intros a b c Hab Hbc. exact (T c b a Hbc Hab).
  - intros a b c Hab Hbc. exact (N c b a Hbc Hab).
Qed.

Lemma StrictWeak_pullback {A B : Type} (f : A -> B) (before : B -> B -> bool) :
  StrictWeak before -> StrictWeak (fun a b => before (f a) (f b)).
Proof.
  intros [I T N]. constructor.
  - intro a. apply I.
  - intros a b c. apply T.
  - intros a b c. apply N.
Qed.

Lemma StrictWeak_never {A : Type} : StrictWeak (fun _ _ : A => false).
Proof. constructor; auto. Qed.

Lemma StrictWeak_lex2 {A : Type} (p s : A -> A -> bool) :
  StrictWeak p -> StrictWeak s -> StrictWeak (lex2 p s).
Proof.
  intros [Ip Tp Np] [Is Ts Ns]. unfold lex2. constructor.
  - intro a. now rewrite Ip, Is.
  - intros a b c Hab Hbc.
    destruct (p a c) eqn:Eac; [reflexivity|]. simpl.
    destruct (p a b) eqn:Eab, (p b c) eqn:Ebc; simpl in *.
    + now rewrite (Tp a b c Eab Ebc) in Eac.
    + destruct (p c b) eqn:Ecb; simpl in Hbc; [discriminate|].
      now rewrite (Np a c b Eac Ecb) in Eab.
    + destruct (p b a) eqn:Eba; simpl in Hab; [discriminate|].
      now rewrite (Np b a c Eba Eac) in Ebc.
    + destruct (p b a) eqn:Eba; simpl in Hab; [discriminate|].
      destruct (p c b) eqn:Ecb; simpl in Hbc; [discriminate|].
      rewrite (Np c b a Ecb Eba). simpl. exact (Ts a b c Hab Hbc).
  - intros a b c Hab Hbc.
    apply orb_false_iff in Hab. destruct Hab as [Eab Hab].
    apply orb_false_iff in Hbc. destruct Hbc as [Ebc Hbc].
    rewrite (Np a b c Eab Ebc). simpl.
    destruct (p c a) eqn:Eca; [reflexivity|]. simpl.
    destruct (p b a) eqn:Eba.
    + now rewrite (Np b c a Ebc Eca) in Eba.
    + destruct (p c b) eqn:Ecb.
      * now rewrite (Np c a b Eca Eab) in Ecb.
      * simpl in *. exact (Ns a b c Hab Hbc).
Qed.

Lemma tied_lex2 {A : Type} (p s : A -> A -> bool) (a b : A) :
  tied (lex2 p s) a b = tied p a b && tied s a b.
Proof.
  unfold tied, lex2. destruct (p a b), (p b a); reflexivity.
Qed.

Lemma filter_andb {A : Type} (f g : A -> bool) (l : list A) :
  filter (fun x => f x && g x) l = filter g (filter f l).
Proof.
  induction l as [|x r IH]; [reflexivity|]. simpl.
  destruct (f x); simpl; [destruct (g x)|]; now rewrite IH.
Qed.

Lemma filter_comm {A : Type} (f g : A -> bool) (l : list A) :
  filter f (filter g l) = filter g (filter f l).
Proof.
  rewrite <- !filter_andb. apply filter_ext. intro a. apply andb_comm.
Qed.

(** Sorting by [p] a list that is sorted by [s] sorts it by [p], then [s]. *)
Lemma stable_sort_of_sorted {A : Type} (p s : A -> A -> bool) (l : list A) :
  StrictWeak p -> StrictWeak s ->
  sorted_by s l -> sorted_by (lex2 p s) (stable_sort p l).
Proof.
  intros SWp SWs. induction l as [|x r IH]; intro S; simpl; [constructor|].
  apply StronglySorted_inv in S. destruct S as [Sr Fx].
  rewrite Forall_forall in Fx.
  rewrite (insert_by_ext p (lex2 p s)).
  - apply insert_by_sorted; [now apply StrictWeak_lex2 | now apply IH].
  - intros y Hy. apply stable_sort_In in Hy. unfold lex2.
    rewrite (Fx y Hy), andb_false_r, orb_false_r. reflexivity.
Qed.

(** Two stable passes, the secondary key first, are one stable sort by the
    lexicographic order. *)
Lemma stable_sort_twice {A : Type} (p s : A -> A -> bool) (l : list A) :
  StrictWeak p -> StrictWeak s ->
  stable_sort p (stable_sort s l) = stable_sort (lex2 p s) l.
Proof.
  intros SWp SWs. apply stable_sort_unique.
  - now apply StrictWeak_lex2.
  - apply stable_sort_of_sorted; auto. now apply stable_sort_sorted.
  - intro a.
    rewrite (filter_ext _ (fun b => tied p a b && tied s a b))
      by (intro b; apply tied_lex2).
    rewrite (filter_ext (tied (lex2 p s) a)
                        (fun b => tied p a b && tied s a b))
      by (intro b; apply tied_lex2).
    rewrite !filter_andb.
    rewrite (filter_tied_stable_sort p SWp).
    rewrite (filter_comm (tied s a)).
    rewrite (filter_tied_stable_sort s SWs).
    apply filter_comm.
Qed.

Lemma StronglySorted_snoc {A : Type} (R : A -> A -> Prop) (x : A) (l : list A) :
  StronglySorted R l -> Forall (fun a => R a x) l ->
  StronglySorted R (l ++ [x]).
Proof.
  induction l as [|y r IH]; intros S F; simpl.
  - constructor; constructor.
  - apply StronglySorted_inv in S. destruct S as [Sr Fy].
    apply Forall_cons_iff in F. destruct F as [Hy Fr].
    constructor; [now apply IH|].
    apply Forall_app. split; [exact Fy | now constructor].
Qed.

Lemma sorted_by_rev {A : Type} (before : A -> A -> bool) (l : list A) :
  sorted_by before l -> sorted_by (fun a b => before b a) (rev l).
Proof.
  unfold sorted_by. induction l as [|x r IH]; intro S; simpl; [constructor|].
  apply StronglySorted_inv in S. destruct S as [Sr Fx].
  apply StronglySorted_snoc; [now apply IH|].
  apply Forall_rev. exact Fx.
Qed.

(** Reversing, sorting forward and reversing again is the stable sort by
    the reversed order. *)
Lemma stable_sort_reversed {A : Type} (before : A -> A -> bool) (l : list A) :
  StrictWeak before ->
  rev (stable_sort before (rev l)) = stable_sort (fun a b => before b a) l.
Proof.
  intro SW. apply stable_sort_unique.
  - now apply StrictWeak_flip.
  - apply sorted_by_rev. now apply stable_sort_sorted.
  - intro a.
    rewrite !(filter_ext (tied (fun a b => before b a) a) (tied before a))
      by (intro b; unfold tied; apply andb_comm).
    rewrite filter_rev, (filter_tied_stable_sort before SW), filter_rev.
    apply rev_involutive.
Qed.

Lemma insert_by_map {A B : Type} (g : A -> B) (before : B -> B -> bool)
    (x : A) (l : list A) :
  insert_by before (g x) (map g l)
  = map g (insert_by (fun a b => before (g a) (g b)) x l).
Proof.
  induction l as [|y r IH]; [reflexivity|]. simpl.
  destruct (before (g y) (g x)); simpl; [now rewrite IH | reflexivity].
Qed.

Lemma stable_sort_map {A B : Type} (g : A -> B) (before : B -> B -> bool)
    (l : list A) :
  stable_sort before (map g l)
  = map g (stable_sort (fun a b => before (g a) (g b)) l).
Proof.
  induction l as [|x r IH]; [reflexivity|]. simpl.
  rewrite IH. apply insert_by_map.
Qed.

Lemma stable_sort_never {A : Type} (l : list A) :
  stable_sort (fun _ _ => false) l = l.
Proof.
  induction l as [|x r IH]; [reflexivity|]. simpl. rewrite IH.
  now destruct r.
Qed.

(* ------------------------------------------------------------------ *)
(** ** The order on values *)

Lemma TotalCmp_Z : TotalCmp Z.compare.
Proof.
  constructor.
  - intros a b. apply Z.compare_eq.
  - apply Z.compare_refl.
  - intros a b. apply Z.compare_antisym.
  - intros a b c. rewrite !Z.compare_lt_iff. lia.
Qed.

Lemma TotalCmp_ascii : TotalCmp Ascii.compare.
Proof.
  constructor.
  - apply Ascii.compare_eq_iff.
  - intro a. apply N.compare_refl.
  - intros a b. apply Ascii.compare_antisym.
  - intros a b c. unfold Ascii.compare. rewrite !N.compare_lt_iff. lia.
Qed.

Lemma TotalCmp_string : TotalCmp String.compare.
Proof.
  constructor.
  - apply String.compare_eq_iff.
  - intro s. induction s as [|x s IH]; simpl; [reflexivity|].
    now rewrite (tc_refl _ TotalCmp_ascii).
  - intros a b. apply String.compare_antisym.
  - intro a. induction a as [|x a IH]; intros [|y b] [|z c]; simpl;
      try discriminate; try reflexivity.
    destruct (Ascii.compare x y) eqn:Exy; try discriminate.
    + apply (tc_eq _ TotalCmp_ascii) in Exy. subst y.
      destruct (Ascii.compare x z); try discriminate; [apply IH | reflexivity].
    + intros _. destruct (Ascii.compare y z) eqn:Eyz; try discriminate.
      * apply (tc_eq _ TotalCmp_ascii) in Eyz. subst z. now rewrite Exy.
      * now rewrite (tc_trans _ TotalCmp_ascii x y z Exy Eyz).
Qed.

Lemma TotalCmp_lex_compare {A B : Type} (c1 : A -> A -> comparison)
    (c2 : B -> B -> comparison) :
  TotalCmp c1 -> TotalCmp c2 -> TotalCmp (lex_compare c1 c2).
Proof.
  intros T1 T2. unfold lex_compare. constructor.
  - intros [a1 a2] [b1 b2]. simpl.
    destruct (c1 a1 b1) eqn:E1; try discriminate.
    intro E2. apply (tc_eq _ T1) in E1. apply (tc_eq _ T2) in E2.
    now subst.
  - intros [a1 a2]. simpl. now rewrite (tc_refl _ T1), (tc_refl _ T2).
  - intros [a1 a2] [b1 b2]. simpl. rewrite (tc_antisym _ T1 a1 b1).
    destruct (c1 a1 b1); simpl; try reflexivity. apply (tc_antisym _ T2).
  - intros [a1 a2] [b1 b2] [d1 d2]. simpl.
    destruct (c1 a1 b1) eqn:Eab; try discriminate.
    + apply (tc_eq _ T1) in Eab. subst b1.
      destruct (c1 a1 d1); try discriminate; [apply (tc_trans _ T2) | reflexivity].
    + intros _. destruct (c1 b1 d1) eqn:Ebd; try discriminate.
      * apply (tc_eq _ T1) in Ebd. subst d1. now rewrite Eab.
      * now rewrite (tc_trans _ T1 a1 b1 d1 Eab Ebd).
Qed.

Lemma TotalCmp_seq_compare {A : Type} (cmp : A -> A -> comparison) :
  TotalCmp cmp -> TotalCmp (seq_compare cmp).
Proof.
  intro T. constructor.
  - intro a. induction a as [|x a IH]; intros [|y b]; simpl;
      try discriminate; try reflexivity.
    destruct (cmp x y) eqn:E; try discriminate.
    intro H. apply (tc_eq _ T) in E. subst y. f_equal. now apply IH.
  - intro a. induction a as [|x a IH]; simpl; [reflexivity|].
    now rewrite (tc_refl _ T).
  - intro a. induction a as [|x a IH]; intros [|y b]; simpl;
      try reflexivity.
    rewrite (tc_antisym _ T x y).
    destruct (cmp x y); simpl; try reflexivity. apply IH.
  - intro a. induction a as [|x a IH]; intros [|y b] [|z c]; simpl;
      try discriminate; try reflexivity.
    destruct (cmp x y) eqn:Exy; try discriminate.
    + apply (tc_eq _ T) in Exy. subst y.
      destruct (cmp x z); try discriminate; [apply IH | reflexivity].
    + intros _. destruct (cmp y z) eqn:Eyz; try discriminate.
      * apply (tc_eq _ T) in Eyz. subst z. now rewrite Exy.
      * now rewrite (tc_trans _ T x y z Exy Eyz).
Qed.

Lemma TotalCmp_keyid : TotalCmp keyid_compare.
Proof.
  constructor.
  - intros [a|s] [b|t]; simpl; try discriminate; intro H.
    + now rewrite (tc_eq _ TotalCmp_Z a b H).
    + now rewrite (tc_eq _ TotalCmp_string s t H).
  - intros [a|s]; simpl;
      [apply (tc_refl _ TotalCmp_Z) | apply (tc_refl _ TotalCmp_string)].
  - intros [a|s] [b|t]; simpl; try reflexivity;
      [apply (tc_antisym _ TotalCmp_Z) | apply (tc_antisym _ TotalCmp_string)].
  - intros [a|s] [b|t] [c|u]; simpl; try discriminate; try reflexivity;
      [apply (tc_trans _ TotalCmp_Z) | apply (tc_trans _ TotalCmp_string)].
Qed.

Lemma TotalCmp_pairs : TotalCmp pairs_compare.
Proof.
  apply TotalCmp_seq_compare.
  exact (TotalCmp_lex_compare _ _ TotalCmp_string TotalCmp_keyid).
Qed.

Lemma TotalCmp_pullback {A B : Type} (f : A -> B) (cmp : B -> B -> comparison) :
  (forall a b, f a = f b -> a = b) ->
  TotalCmp cmp -> TotalCmp (fun a b => cmp (f a) (f b)).
Proof.
  intros Hinj T. constructor.
  - intros a b H. apply Hinj. now apply (tc_eq _ T).
  - intro a. apply (tc_refl _ T).
  - intros a b. apply (tc_antisym _ T).
  - intros a b c. apply (tc_trans _ T).
Qed.

Lemma key_tuple_inj (k1 k2 : Key) : key_tuple k1 = key_tuple k2 -> k1 = k2.
Proof.
  destruct k1, k2. unfold key_tuple, key_pairs. simpl.
  intro H. injection H as Ha Hn Hp.
  apply app_inj_tail in Hp. destruct Hp as [Hp Hl].
  injection Hl as Hk Hi. now subst.
Qed.

Lemma TotalCmp_key : TotalCmp key_compare.
Proof.
  exact (TotalCmp_pullback key_tuple
           (lex_compare String.compare
              (lex_compare String.compare pairs_compare))
           key_tuple_inj
           (TotalCmp_lex_compare _ _ TotalCmp_string
              (TotalCmp_lex_compare _ _ TotalCmp_string TotalCmp_pairs))).
Qed.

Lemma TotalCmp_value : TotalCmp value_compare.
Proof.
  constructor.
  - intros [|a|s|k] [|b|t|j]; simpl; try discriminate; intro H.
    + reflexivity.
    + now rewrite (tc_eq _ TotalCmp_Z a b H).
    + now rewrite (tc_eq _ TotalCmp_string s t H).
    + now rewrite (tc_eq _ TotalCmp_key k j H).
  - intros [|a|s|k]; simpl; [reflexivity | apply (tc_refl _ TotalCmp_Z)
      | apply (tc_refl _ TotalCmp_string) | apply (tc_refl _ TotalCmp_key)].
  - intros [|a|s|k] [|b|t|j]; simpl; try reflexivity;
      [apply (tc_antisym _ TotalCmp_Z) | apply (tc_antisym _ TotalCmp_string)
       | apply (tc_antisym _ TotalCmp_key)].
  - intros [|a|s|k] [|b|t|j] [|c|u|i]; simpl; try discriminate;
      try reflexivity;
      [apply (tc_trans _ TotalCmp_Z) | apply (tc_trans _ TotalCmp_string)
       | apply (tc_trans _ TotalCmp_key)].
Qed.

Lemma StrictWeak_of_TotalCmp {A : Type} (cmp : A -> A -> comparison) :
  TotalCmp cmp -> StrictWeak (fun a b => is_lt (cmp a b)).
Proof.
  intro T. constructor.
  - intro a. now rewrite (tc_refl _ T).
  - intros a b c Hab Hbc.
    destruct (cmp a b) eqn:Eab; try discriminate.
    destruct (cmp b c) eqn:Ebc; try discriminate.
    now rewrite (tc_trans _ T a b c Eab Ebc).
  - intros a b c Hab Hbc.
    destruct (cmp a c) eqn:Eac; try reflexivity. exfalso.
    destruct (cmp a b) eqn:Eab; try discriminate.
    + apply (tc_eq _ T) in Eab. subst b. now rewrite Eac in Hbc.
    + assert (Eba : cmp b a = Lt) by (now rewrite (tc_antisym _ T a b), Eab).
      now rewrite (tc_trans _ T b a c Eba Eac) in Hbc.
Qed.

Lemma StrictWeak_value_ltb : StrictWeak value_ltb.
Proof. exact (StrictWeak_of_TotalCmp _ TotalCmp_value). Qed.

(** Where Python orders two values, the total order agrees. *)
Lemma keyid_cmp_compare (i j : KeyId) (c : comparison) :
  keyid_cmp i j = Ok c -> keyid_compare i j = c.
Proof. destruct i, j; simpl; intro H; now inversion H. Qed.

Lemma pairs_cmp_compare (l1 l2 : list (string * KeyId)) (c : comparison) :
  pairs_cmp l1 l2 = Ok c -> pairs_compare l1 l2 = c.
Proof.
  unfold pairs_compare. revert l2 c.
  induction l1 as [|p r1 IH]; intros [|q r2] c; simpl; intro H;
    try (now inversion H).
  unfold pair_cmp, pair_compare in *.
  destruct (String.compare (fst p) (fst q)); simpl in *;
    try (now inversion H).
  destruct (keyid_cmp (snd p) (snd q)) as [c'|e] eqn:E; simpl in H;
    [|discriminate].
  rewrite (keyid_cmp_compare _ _ _ E).
  destruct c'; [now apply IH | now inversion H | now inversion H].
Qed.

Lemma py_compare_value_compare (a b : Value) (c : comparison) :
  py_compare a b = Ok c -> value_compare a b = c.
Proof.
  destruct a, b; simpl; intro H; try discriminate; try (now inversion H).
  unfold key_cmp, key_compare in *.
  destruct (String.compare (key_app k) (key_app k0));
    try (now inversion H).
  destruct (String.compare (key_namespace k) (key_namespace k0));
    try (now inversion H).
  now apply pairs_cmp_compare.
Qed.

Lemma py_lt_value_ltb (a b : Value) (r : bool) :
  py_lt a b = Ok r -> r = value_ltb a b.
Proof.
  unfold py_lt, value_ltb. destruct (py_compare a b) as [c|e] eqn:E;
    simpl; intro H; [|discriminate].
  rewrite (py_compare_value_compare _ _ _ E). now inversion H.
Qed.

(* ------------------------------------------------------------------ *)
(** ** [list.sort] is the stable sort by the key *)

Lemma mapM_map {A B : Type} (f : A -> Result B) (g : A -> B) (l : list A)
    (l' : list B) :
  (forall x y, f x = Ok y -> y = g x) ->
  mapM f l = Ok l' -> l' = map g l.
Proof.
  intro Hfg. revert l'. induction l as [|x r IH]; intros l' H; simpl in *.
  - now injection H as <-.
  - destruct (f x) as [y|e] eqn:Ex; simpl in H; [|discriminate].
    destruct (mapM f r) as [r'|e]; simpl in H; [|discriminate].
    injection H as <-. now rewrite (Hfg x y Ex), (IH r' eq_refl).
Qed.

Lemma mapM_total {A B : Type} (f : A -> Result B) (l : list A) :
  (forall x, In x l -> exists y, f x = Ok y) ->
  exists l', mapM f l = Ok l'.
Proof.
  induction l as [|x r IH]; intro H; simpl; [eauto|].
  destruct (H x (or_introl eq_refl)) as [y ->]. simpl.
  destruct IH as [r' ->]; [intros z Hz; apply H; now right|].
  simpl. eauto.
Qed.

Lemma insertM_insert_by {A : Type} (ltM : A -> A -> Result bool)
    (lt : A -> A -> bool) (x : A) (l l' : list A) :
  (forall a b r, ltM a b = Ok r -> r = lt a b) ->
  insertM ltM x l = Ok l' -> l' = insert_by lt x l.
Proof.
  intro Hlt. revert l'. induction l as [|y r IH]; intros l' H; simpl in *.
  - now injection H as <-.
  - destruct (ltM y x) as [b|e] eqn:E; simpl in H; [|discriminate].
    rewrite <- (Hlt y x b E). destruct b.
    + destruct (insertM ltM x r) as [r'|e]; simpl in H; [|discriminate].
      injection H as <-. now rewrite (IH r' eq_refl).
    + now injection H as <-.
Qed.

Lemma sortM_stable_sort {A : Type} (ltM : A -> A -> Result bool)
    (lt : A -> A -> bool) (l l' : list A) :
  (forall a b r, ltM a b = Ok r -> r = lt a b) ->
  sortM ltM l = Ok l' -> l' = stable_sort lt l.
Proof.
  intro Hlt. revert l'. induction l as [|x r IH]; intros l' H; simpl in *.
  - now injection H as <-.
  - destruct (sortM ltM r) as [r'|e]; simpl in H; [|discriminate].
    rewrite <- (IH r' eq_refl). now apply (insertM_insert_by ltM).
Qed.

Lemma insertM_total {A : Type} (ltM : A -> A -> Result bool) (x : A)
    (l : list A) :
  (forall y, In y l -> exists b, ltM y x = Ok b) ->
  exists l', insertM ltM x l = Ok l'.
Proof.
  induction l as [|y r IH]; intro H; simpl; [eauto|].
  destruct (H y (or_introl eq_refl)) as [[|] ->]; simpl; [|eauto].
  destruct IH as [r' ->]; [intros z Hz; apply H; now right|].
  simpl. eauto.
Qed.

Lemma sortM_total {A : Type} (ltM : A -> A -> Result bool)
    (lt : A -> A -> bool) (l : list A) :
  (forall a b r, ltM a b = Ok r -> r = lt a b) ->
  (forall a b, In a l -> In b l -> exists r, ltM a b = Ok r) ->
  exists l', sortM ltM l = Ok l'.
Proof.
  intros Hlt. induction l as [|x r IH]; intro H; simpl; [eauto|].
  destruct IH as [r' Hr'];
    [intros a b Ha Hb; apply H; now right|].
  rewrite Hr'. simpl. apply insertM_total. intros y Hy.
  apply H; [right | now left].
  rewrite (sortM_stable_sort ltM lt r r' Hlt Hr') in Hy.
  now apply stable_sort_In in Hy.
Qed.

Section ListSort.

Context {A : Type}.
Variable key : A -> Result Value.

Lemma map_snd_keyed (l : list A) :
  map snd (map (fun x => (key_of key x, x)) l) = l.
Proof. rewrite map_map. simpl. apply map_id. Qed.

Lemma mapM_keyed (l : list A) (keyed : list (Value * A)) :
  mapM (fun x => k <- key x ;; Ok (k, x)) l = Ok keyed ->
  keyed = map (fun x => (key_of key x, x)) l.
Proof.
  apply mapM_map. intros x y. unfold key_of.
  destruct (key x); simpl; intro H; [now inversion H | discriminate].
Qed.

Lemma list_sort_stable_sort (reverse : bool) (l l' : list A) :
  list_sort key reverse l = Ok l' ->
  l' = stable_sort (keyed_before key reverse) l.
Proof.
  unfold list_sort.
  destruct (mapM (fun x => k <- key x ;; Ok (k, x)) l) as [keyed|e] eqn:Ek;
    simpl; [|discriminate].
  apply mapM_keyed in Ek. subst keyed.
  set (ltp := fun p q : Value * A => value_ltb (fst p) (fst q)).
  assert (SW : StrictWeak ltp)
    by exact (StrictWeak_pullback fst value_ltb StrictWeak_value_ltb).
  destruct reverse.
  - destruct (sortM _ _) as [sorted|e] eqn:Es; simpl; [|discriminate].
    intro H. injection H as <-.
    apply (sortM_stable_sort _ ltp) in Es;
      [|intros a b r; apply py_lt_value_ltb].
    subst sorted. rewrite (stable_sort_reversed ltp _ SW).
    rewrite stable_sort_map. apply map_snd_keyed.
  - destruct (sortM _ _) as [sorted|e] eqn:Es; simpl; [|discriminate].
    intro H. injection H as <-.
    apply (sortM_stable_sort _ ltp) in Es;
      [|intros a b r; apply py_lt_value_ltb].
    subst sorted. rewrite stable_sort_map. apply map_snd_keyed.
Qed.

Lemma list_sort_total (reverse : bool) (l : list A) :
  (forall x, In x l -> exists v, key x = Ok v) ->
  (forall a b, In a l -> In b l ->
     exists c, py_compare (key_of key a) (key_of key b) = Ok c) ->
  exists l', list_sort key reverse l = Ok l'.
Proof.
  intros Hkey Hcmp. unfold list_sort.
  destruct (mapM_total (fun x => k <- key x ;; Ok (k, x)) l) as [keyed Ek].
  { intros x Hx. destruct (Hkey x Hx) as [v ->]. simpl. eauto. }
  rewrite Ek. simpl. apply mapM_keyed in Ek. subst keyed.
  assert (Hall : forall p q : Value * A,
             In p (map (fun x => (key_of key x, x)) l) ->
             In q (map (fun x => (key_of key x, x)) l) ->
             exists r, py_lt (fst p) (fst q) = Ok r).
  { intros p q Hp Hq. apply in_map_iff in Hp, Hq.
    destruct Hp as (a & <- & Ha). destruct Hq as (b & <- & Hb). simpl.
    unfold py_lt. destruct (Hcmp a b Ha Hb) as [c ->]. simpl. eauto. }
  destruct (sortM_total
              (fun p q : Value * A => py_lt (fst p) (fst q))
              (fun p q => value_ltb (fst p) (fst q))
              (if reverse then rev (map (fun x => (key_of key x, x)) l)
               else map (fun x => (key_of key x, x)) l)) as [sorted Es].
  - intros a b r. apply py_lt_value_ltb.
  - intros p q Hp Hq. apply Hall; destruct reverse; auto;
      now apply in_rev.
  - rewrite Es. simpl. eauto.
Qed.

End ListSort.

(* ------------------------------------------------------------------ *)
(** ** The sort step of the evaluator *)

Lemma StrictWeak_key_before (order : string) : StrictWeak (key_before order).
Proof.
  unfold key_before. destruct (strip_sign order) as [[|] name].
  - exact (StrictWeak_flip _
             (StrictWeak_pullback (fun m => sort_value m name) value_ltb
                                  StrictWeak_value_ltb)).
  - exact (StrictWeak_pullback (fun m => sort_value m name) value_ltb
                               StrictWeak_value_ltb).
Qed.

Lemma StrictWeak_lex_before (orders : list string) :
  StrictWeak (lex_before orders).
Proof.
  induction orders as [|k r IH]; simpl.
  - exact StrictWeak_never.
  - exact (StrictWeak_lex2 _ _ (StrictWeak_key_before k) IH).
Qed.

(** One pass sorts by one signed key, stably. *)
Lemma _sort_by_property_name_stable_sort (l l' : list PyObj) (order : string) :
  _sort_by_property_name l order = Ok l' ->
  l' = stable_sort (key_before order) l.
Proof.
  unfold _sort_by_property_name. intro H.
  rewrite (stable_sort_ext (key_before order)
             (keyed_before
                (fun m => get_model_property m (snd (strip_sign order)))
                (fst (strip_sign order)))).
  - destruct (strip_sign order) as [reverse name].
    now apply list_sort_stable_sort.
  - intros a b. unfold key_before, keyed_before.
    now destruct (strip_sign order) as [reverse name].
Qed.

Lemma _sort_by_property_name_total (l : list PyObj) (order : string) :
  (forall m, In m l ->
     exists v, get_model_property m (snd (strip_sign order)) = Ok v) ->
  (forall a b, In a l -> In b l ->
     exists c, py_compare (sort_value a (snd (strip_sign order)))
                          (sort_value b (snd (strip_sign order))) = Ok c) ->
  exists l', _sort_by_property_name l order = Ok l'.
Proof.
  unfold _sort_by_property_name.
  destruct (strip_sign order) as [reverse name]. simpl.
  intros Hkey Hcmp. now apply list_sort_total.
Qed.

Lemma sort_passes_app (ks1 ks2 : list string) (l : list PyObj) :
  sort_passes (ks1 ++ ks2) l = (l1 <- sort_passes ks1 l ;; sort_passes ks2 l1).
Proof.
  revert l. induction ks1 as [|k r IH]; intro l; simpl; [reflexivity|].
  destruct (_sort_by_property_name l k); simpl; [apply IH | reflexivity].
Qed.

(** The passes, made from the last key to the first, are the stable sort
    by the lexicographic order of the keys. *)
Lemma sort_passes_lexicographic (orders : list string) (l l' : list PyObj) :
  sort_passes (rev orders) l = Ok l' ->
  l' = lexicographic_stable_sort orders l.
Proof.
  unfold lexicographic_stable_sort. revert l'.
  induction orders as [|k r IH]; intros l' H.
  - simpl in H. injection H as <-. symmetry. apply stable_sort_never.
  - simpl rev in H. rewrite sort_passes_app in H.
    destruct (sort_passes (rev r) l) as [l1|e]; simpl in H; [|discriminate].
    destruct (_sort_by_property_name l1 k) as [l2|e] eqn:E; simpl in H;
      [|discriminate].
    injection H as <-.
    apply _sort_by_property_name_stable_sort in E. subst l2.
    rewrite (IH l1 eq_refl).
    exact (stable_sort_twice (key_before k) (lex_before r) l
             (StrictWeak_key_before k) (StrictWeak_lex_before r)).
Qed.

Lemma sort_passes_total (orders : list string) (l : list PyObj) :
  sortable orders l -> exists l', sort_passes (rev orders) l = Ok l'.
Proof.
  induction orders as [|k r IH]; intro S; simpl; [eauto|].
  rewrite sort_passes_app.
  destruct IH as [l1 H1].
  { intros k' Hk'. apply S. now right. }
  rewrite H1. simpl.
  apply sort_passes_lexicographic in H1.
  assert (Hin : forall m, In m l1 -> In m l).
  { intros m Hm. subst l1. now apply stable_sort_In in Hm. }
  destruct (S k (or_introl eq_refl)) as [Hkey Hcmp].
  destruct (_sort_by_property_name_total l1 k) as [l2 ->]; simpl; eauto.
Qed.

Lemma insert_by_Permutation {A : Type} (before : A -> A -> bool) (x : A)
    (l : list A) :
  Permutation (insert_by before x l) (x :: l).
Proof.
  induction l as [|y r IH]; simpl; [reflexivity|].
  destruct (before y x); [|reflexivity].
  rewrite IH. apply perm_swap.
Qed.

Lemma stable_sort_Permutation {A : Type} (before : A -> A -> bool)
    (l : list A) :
  Permutation (stable_sort before l) l.
Proof.
  induction l as [|x r IH]; simpl; [reflexivity|].
  rewrite insert_by_Permutation. now constructor.
Qed.

(** C1. With a non-empty order, the sort step makes one pass per order
    key, from the last key to the first; each pass is a stable sort by
    that key, ascending, or descending for a key with a leading [-].  The
    list it returns is the stable sort by the lexicographic order of the
    keys in their listed priority: a permutation of the list, sorted by
    that order, in which tied models keep their order.  The step returns
    whenever every model has the properties and their values can be
    compared.  On the three example entities, kind A and order
    [("-score", "id")] give the ids 3, 1, 2. *)
Theorem sort_passes_are_lexicographic_stable_sort :
  forall (query : Query) (model_list : list PyObj),
    seq_truthy (q_order query) = true ->
    order_pass query model_list
    = sort_passes (rev (seq_items (q_order query))) model_list
    /\ (forall order l l',
          _sort_by_property_name l order = Ok l' ->
          l' = stable_sort (key_before order) l)
    /\ (forall l',
          order_pass query model_list = Ok l' ->
          l' = lexicographic_stable_sort (seq_items (q_order query)) model_list)
    /\ (sortable (seq_items (q_order query)) model_list ->
        order_pass query model_list
        = Ok (lexicographic_stable_sort (seq_items (q_order query))
                                        model_list))
    /\ Permutation
         (lexicographic_stable_sort (seq_items (q_order query)) model_list)
         model_list
    /\ sorted_by (lex_before (seq_items (q_order query)))
         (lexicographic_stable_sort (seq_items (q_order query)) model_list)
    /\ (forall m,
          filter (tied (lex_before (seq_items (q_order query))) m)
            (lexicographic_stable_sort (seq_items (q_order query)) model_list)
          = filter (tied (lex_before (seq_items (q_order query))) m)
                   model_list)
    /\ apply_query_to_models
         (mkQuery (Some "A") None PyNone (PyTuple ["-score"; "id"]) None)
         example_entities
       = Ok [entity 3 9; entity 1 5; entity 2 5].
Proof.
  intros query model_list Hne.
  assert (Hpass : order_pass query model_list
                  = sort_passes (rev (seq_items (q_order query))) model_list).
  { unfold order_pass. now rewrite Hne. }
  split; [exact Hpass|].
  split; [intros order l l'; apply _sort_by_property_name_stable_sort|].
  split; [intro l'; rewrite Hpass; apply sort_passes_lexicographic|].
  split.
  { intro S. rewrite Hpass.
    destruct (sort_passes_total _ _ S) as [l' H]. rewrite H. f_equal.
    now apply sort_passes_lexicographic. }
  split; [apply stable_sort_Permutation|].
  split; [apply stable_sort_sorted, StrictWeak_lex_before|].
  split; [|reflexivity].
  intro m. apply filter_tied_stable_sort, StrictWeak_lex_before.
Qed.

Lemma sort_passes_are_lexicographic_stable_sort_witness :
  order_pass (mkQuery (Some "A") None PyNone (PyTuple ["-score"; "id"]) None)
             example_entities
  = Ok [entity 3 9; entity 1 5; entity 2 5]
  /\ [entity 3 9; entity 1 5; entity 2 5]
     = lexicographic_stable_sort ["-score"; "id"] example_entities.
Proof.
  split; [reflexivity|].
  destruct (sort_passes_are_lexicographic_stable_sort
              (mkQuery (Some "A") None PyNone (PyTuple ["-score"; "id"]) None)
              example_entities eq_refl) as (_ & _ & H & _).
  exact (H _ eq_refl).
Defined.

(* ================================================================== *)
(** * Further properties of the module *)

(* ------------------------------------------------------------------ *)
(** ** The kind and namespace passes *)

Lemma filterM_all_true {A : Type} (f : A -> Result bool) (l : list A) :
  (forall x, In x l -> f x = Ok true) -> filterM f l = Ok l.
Proof.
  induction l as [|x r IH]; intro H; simpl; [reflexivity|].
  rewrite (H x (or_introl eq_refl)). simpl.
  rewrite IH; [reflexivity|]. intros y Hy. apply H. now right.
Qed.

Lemma filterM_evaluates_all {A : Type} (f : A -> Result bool) (l l' : list A) :
  filterM f l = Ok l' -> forall x, In x l -> exists b, f x = Ok b.
Proof.
  revert l'. induction l as [|x r IH]; intros l' H y Hy; [destruct Hy|].
  simpl in H. destruct (f x) as [b|e] eqn:E; simpl in H; [|discriminate].
  destruct (filterM f r) as [r'|e]; simpl in H; [|discriminate].
  destruct Hy as [<-|Hy]; [eauto | exact (IH r' eq_refl y Hy)].
Qed.

(** When every failing element fails with the same exception, one failing
    element makes the comprehension fail with it. *)
Lemma filterM_raises {A : Type} (f : A -> Result bool) (e : Exc) (l : list A) :
  (forall x e', In x l -> f x = Raise e' -> e' = e) ->
  (exists x, In x l /\ f x = Raise e) ->
  filterM f l = Raise e.
Proof.
  induction l as [|x r IH]; intros Hsame [y [Hy Ey]]; [destruct Hy|].
  simpl. destruct (f x) as [b|e'] eqn:E; simpl.
  - destruct Hy as [->|Hy]; [rewrite Ey in E; discriminate|].
    rewrite IH; [reflexivity | | eauto].
    intros z e' Hz. apply Hsame. now right.
  - f_equal. exact (Hsame x e' (or_introl eq_refl) E).
Qed.

(** X1. With a truthy kind, the kind pass keeps exactly the model
    instances and model classes whose kind is the kind of the query, in
    their order; it returns when the list holds models and model classes
    only, and raises [TypeError] as soon as the list holds any other
    object. *)
Theorem kind_pass_keeps_the_kind :
  forall (query : Query) (model_list : list PyObj),
    str_truthy (q_kind query) = true ->
    (forall l', kind_pass query model_list = Ok l' ->
       l' = filter (kind_matches query) model_list)
    /\ ((forall v, ~ In (PValue v) model_list) ->
        kind_pass query model_list
        = Ok (filter (kind_matches query) model_list))
    /\ (forall v, In (PValue v) model_list ->
        kind_pass query model_list
        = Raise (TypeError "%r is not a model type or instance")).
Proof.
  intros query model_list Hkind. unfold kind_pass. rewrite Hkind.
  assert (Hcond : forall l',
             filterM (fun m => k <- get_model_kind m ;;
                               Ok (str_eq_opt k (q_kind query)))
                     model_list = Ok l' ->
             l' = filter (kind_matches query) model_list).
  { intro l'. apply filterM_filter. intros m b. unfold kind_matches.
    destruct (get_model_kind m); simpl; intro H; [now inversion H|].
    discriminate. }
  split; [exact Hcond|]. split.
  - intro Hmodels.
    destruct (filterM_total
                (fun m => k <- get_model_kind m ;;
                          Ok (str_eq_opt k (q_kind query)))
                model_list) as [l' Hl'].
    { intros [m|c|v] Hm; simpl; eauto. elim (Hmodels v Hm). }
    rewrite Hl'. f_equal. now apply Hcond.
  - intros v Hv. apply filterM_raises.
    + intros [m|c|w] e' _; simpl; intro H; try discriminate.
      now inversion H.
    + exists (PValue v). split; [exact Hv | reflexivity].
Qed.

Lemma kind_pass_keeps_the_kind_witness :
  kind_pass (mkQuery (Some "A") None PyNone PyNone None)
            [entity 2 5; PClass (mkClass "B" "B"); PClass class_A]
  = Ok [entity 2 5; PClass class_A]
  /\ kind_pass (mkQuery (Some "A") None PyNone PyNone None)
               [entity 2 5; PValue (VInt 1)]
     = Raise (TypeError "%r is not a model type or instance").
Proof.
  split.
  - destruct (kind_pass_keeps_the_kind
                (mkQuery (Some "A") None PyNone PyNone None)
                [entity 2 5; PClass (mkClass "B" "B"); PClass class_A]
                eq_refl) as (_ & H & _).
    rewrite H; [reflexivity|].
    intros v [Hv|[Hv|[Hv|[]]]]; discriminate.
  - destruct (kind_pass_keeps_the_kind
                (mkQuery (Some "A") None PyNone PyNone None)
                [entity 2 5; PValue (VInt 1)] eq_refl) as (_ & _ & H).
    apply (H (VInt 1)). simpl. auto.
Defined.

(** X2. With a truthy namespace, the namespace pass keeps exactly the
    models whose key is in the namespace of the query; it returns when
    every element is a model with a key, and raises [AttributeError] when
    some element has no key to ask. *)
Theorem namespace_pass_keeps_the_namespace :
  forall (query : Query) (model_list : list PyObj),
    str_truthy (q_namespace query) = true ->
    (forall l', namespace_pass query model_list = Ok l' ->
       l' = filter (namespace_matches query) model_list)
    /\ ((forall x, In x model_list ->
           exists m k, x = PModel m /\ model_key m = Some k) ->
        namespace_pass query model_list
        = Ok (filter (namespace_matches query) model_list))
    /\ ((exists x, In x model_list /\
           forall m k, x = PModel m -> model_key m <> Some k) ->
        exists attr, namespace_pass query model_list
                     = Raise (AttributeError attr)).
Proof.
  intros query model_list Hns. unfold namespace_pass. rewrite Hns.
  set (f := fun m => ns <- key_namespace_of m ;;
                     Ok (str_eq_opt ns (q_namespace query))).
  assert (Hcond : forall l',
             filterM f model_list = Ok l' ->
             l' = filter (namespace_matches query) model_list).
  { intro l'. apply filterM_filter. intros m b. unfold f, namespace_matches.
    destruct (key_namespace_of m); simpl; intro H; [now inversion H|].
    discriminate. }
  split; [exact Hcond|]. split.
  - intro Hkeys. destruct (filterM_total f model_list) as [l' Hl'].
    { intros x Hx. destruct (Hkeys x Hx) as (m & k & -> & Hk).
      unfold f. simpl. rewrite Hk. simpl. eauto. }
    rewrite Hl'. f_equal. now apply Hcond.
  - intros (x & Hx & Hnokey).
    destruct (filterM f model_list) as [l'|e] eqn:E.
    + destruct (filterM_evaluates_all f _ _ E x Hx) as [b Hb].
      unfold f in Hb. destruct x as [m|c|v]; simpl in Hb; try discriminate.
      destruct (model_key m) as [k|] eqn:Ek; [|discriminate].
      elim (Hnokey m k eq_refl Ek).
    + assert (R : raises_only
                    (fun e => exists attr, e = AttributeError attr)
                    (filterM f model_list)).
      { apply raises_only_filterM. intros [m|c|v]; unfold f; simpl; eauto.
        destruct (model_key m); simpl; eauto. }
      rewrite E in R. destruct R as [attr ->]. eauto.
Qed.

Lemma namespace_pass_keeps_the_namespace_witness :
  namespace_pass (mkQuery (Some "A") (Some "ns") PyNone PyNone None)
    [entity 2 5;
     PModel (mkModel class_A (Some (mkKey "app" "ns" [] "A" (IdInt 7))) [])]
  = Ok [PModel (mkModel class_A (Some (mkKey "app" "ns" [] "A" (IdInt 7))) [])]
  /\ exists attr,
       namespace_pass (mkQuery (Some "A") (Some "ns") PyNone PyNone None)
                      [entity 2 5; keyless_model]
       = Raise (AttributeError attr).
Proof.
  split.
  - destruct (namespace_pass_keeps_the_namespace
                (mkQuery (Some "A") (Some "ns") PyNone PyNone None)
                [entity 2 5;
                 PModel (mkModel class_A
                           (Some (mkKey "app" "ns" [] "A" (IdInt 7))) [])]
                eq_refl) as (_ & H & _).
    rewrite H; [reflexivity|].
    intros x [<-|[<-|[]]]; eexists; eexists; split; reflexivity.
  - destruct (namespace_pass_keeps_the_namespace
                (mkQuery (Some "A") (Some "ns") PyNone PyNone None)
                [entity 2 5; keyless_model] eq_refl) as (_ & _ & H).
    apply H. exists keyless_model. split; [simpl; auto|].
    intros m k Hm. injection Hm as <-. discriminate.
Defined.

(* ------------------------------------------------------------------ *)
(** ** The evaluator as a whole *)

Lemma filter_all {A : Type} (l : list A) : filter (fun _ => true) l = l.
Proof. induction l as [|x r IH]; simpl; [reflexivity | now rewrite IH]. Qed.

Lemma kind_pass_filter (query : Query) (l l' : list PyObj) :
  kind_pass query l = Ok l' ->
  l' = filter (fun m => if str_truthy (q_kind query)
                        then kind_matches query m else true) l.
Proof.
  unfold kind_pass. destruct (str_truthy (q_kind query)).
  - apply filterM_filter. intros m b. unfold kind_matches.
    destruct (get_model_kind m); simpl; intro H; [now inversion H|].
    discriminate.
  - intro H. injection H as <-. symmetry. apply filter_all.
Qed.

Lemma namespace_pass_filter (query : Query) (l l' : list PyObj) :
  namespace_pass query l = Ok l' ->
  l' = filter (fun m => if str_truthy (q_namespace query)
                        then namespace_matches query m else true) l.
Proof.
  unfold namespace_pass. destruct (str_truthy (q_namespace query)).
  - apply filterM_filter. intros m b. unfold namespace_matches.
    destruct (key_namespace_of m); simpl; intro H; [now inversion H|].
    discriminate.
  - intro H. injection H as <-. symmetry. apply filter_all.
Qed.

Lemma filters_pass_filter (query : Query) (l l' : list PyObj) :
  filters_pass query l = Ok l' ->
  l' = filter (fun m => if seq_truthy (q_filters query)
                        then satisfies_all (seq_items (q_filters query)) m
                        else true) l.
Proof.
  unfold filters_pass. destruct (seq_truthy (q_filters query)).
  - apply filterM_filter. intros m b. apply py_all_satisfies.
  - intro H. injection H as <-. symmetry. apply filter_all.
Qed.

Lemma order_pass_ordered (query : Query) (l l' : list PyObj) :
  order_pass query l = Ok l' -> l' = ordered query l.
Proof.
  unfold order_pass, ordered. destruct (seq_truthy (q_order query)).
  - apply sort_passes_lexicographic.
  - intro H. now injection H as <-.
Qed.

Lemma In_firstn {A : Type} (n : nat) (x : A) (l : list A) :
  In x (firstn n l) -> In x l.
Proof.
  revert l. induction n as [|n IH]; intros [|y r]; simpl; try tauto.
  intros [->|H]; [now left | right; now apply IH].
Qed.

Lemma limit_pass_prefix (query : Query) (l : list PyObj) :
  exists n, limit_pass query l = firstn n l.
Proof.
  unfold limit_pass. destruct (int_truthy (q_limit query)).
  - destruct (q_limit query) as [n|].
    + unfold del_from. destruct (n <? 0); eauto.
    + exists (List.length l). symmetry. apply firstn_all.
  - exists (List.length l). symmetry. apply firstn_all.
Qed.

Lemma ordered_In (query : Query) (m : PyObj) (l : list PyObj) :
  In m (ordered query l) <-> In m l.
Proof.
  unfold ordered, lexicographic_stable_sort.
  destruct (seq_truthy (q_order query)); [apply stable_sort_In | tauto].
Qed.

Lemma ordered_length (query : Query) (l : list PyObj) :
  List.length (ordered query l) = List.length l.
Proof.
  unfold ordered, lexicographic_stable_sort.
  destruct (seq_truthy (q_order query)); [|reflexivity].
  apply Permutation_length, stable_sort_Permutation.
Qed.

Lemma filter_length_le {A : Type} (f : A -> bool) (l : list A) :
  (List.length (filter f l) <= List.length l)%nat.
Proof.
  induction l as [|x r IH]; simpl; [lia|]. destruct (f x); simpl; lia.
Qed.

Lemma StronglySorted_firstn {A : Type} (R : A -> A -> Prop) (n : nat)
    (l : list A) :
  StronglySorted R l -> StronglySorted R (firstn n l).
Proof.
  revert l. induction n as [|n IH]; intros [|x r] S; simpl;
    try constructor.
  - apply IH. now apply StronglySorted_inv in S.
  - apply StronglySorted_inv in S. destruct S as [_ F].
    rewrite Forall_forall in *. intros y Hy. apply F.
    now apply In_firstn in Hy.
Qed.

(** What [apply_query_to_models] leaves in the list when it returns: the
    matching models, in the asked order, truncated. *)
Lemma apply_query_to_models_result (query : Query) (l l' : list PyObj) :
  apply_query_to_models query l = Ok l' ->
  l' = limit_pass query (ordered query (filter (matches query) l)).
Proof.
  unfold apply_query_to_models.
  destruct (is_None (q_kind query) && negb (is_key_order (q_order query)));
    [discriminate|].
  destruct (kind_pass query l) as [l1|e] eqn:E1; simpl; [|discriminate].
  destruct (namespace_pass query l1) as [l2|e] eqn:E2; simpl; [|discriminate].
  destruct (filters_pass query l2) as [l3|e] eqn:E3; simpl; [|discriminate].
  destruct (order_pass query l3) as [l4|e] eqn:E4; simpl; [|discriminate].
  intro H. injection H as <-.
  apply kind_pass_filter in E1. apply namespace_pass_filter in E2.
  apply filters_pass_filter in E3. apply order_pass_ordered in E4.
  subst l4 l3 l2 l1. unfold matches. now rewrite !filter_andb.
Qed.

(** X3. When [apply_query_to_models] returns, the list holds the models
    of the input that pass every filtering step the query switches on
    (kind, namespace, all filters), stably sorted by the order keys when
    there are any, and cut off by the limit.  So every model left comes
    from the input and matches the query, the list is no longer than the
    input and, with order keys, sorted by them; without a truthy limit
    every matching model of the input is left. *)
Theorem apply_returns_matching_models_in_order :
  forall (query : Query) (model_list l' : list PyObj),
    apply_query_to_models query model_list = Ok l' ->
    l' = limit_pass query
           (ordered query (filter (matches query) model_list))
    /\ (forall m, In m l' -> In m model_list /\ matches query m = true)
    /\ (List.length l' <= List.length model_list)%nat
    /\ (seq_truthy (q_order query) = true ->
        sorted_by (lex_before (seq_items (q_order query))) l')
    /\ (int_truthy (q_limit query) = false ->
        forall m, In m model_list -> matches query m = true -> In m l').
Proof.
  intros query model_list l' H.
  apply apply_query_to_models_result in H.
  split; [exact H|].
  destruct (limit_pass_prefix query
              (ordered query (filter (matches query) model_list)))
    as [n Hn].
  rewrite Hn in H. split; [|split; [|split]].
  - intros m Hm. subst l'. apply In_firstn in Hm.
    apply ordered_In in Hm. now apply filter_In in Hm.
  - subst l'. rewrite length_firstn.
    pose proof (ordered_length query (filter (matches query) model_list)).
    pose proof (filter_length_le (matches query) model_list). lia.
  - intro Ho. subst l'. apply StronglySorted_firstn.
    unfold ordered. rewrite Ho.
    apply stable_sort_sorted, StrictWeak_lex_before.
  - intros Hlim m Hm Hmatch. subst l'. rewrite <- Hn.
    unfold limit_pass. rewrite Hlim.
    apply ordered_In. apply filter_In. now split.
Qed.

Lemma apply_returns_matching_models_in_order_witness :
  apply_query_to_models
    (mkQuery (Some "A") None (PyList [("score", ">", VInt 5)])
             (PyTuple ["id"]) None)
    example_entities
  = Ok [entity 3 9]
  /\ In (entity 3 9) example_entities
  /\ matches (mkQuery (Some "A") None (PyList [("score", ">", VInt 5)])
                      (PyTuple ["id"]) None) (entity 3 9) = true.
Proof.
  split; [reflexivity|].
  destruct (apply_returns_matching_models_in_order
              (mkQuery (Some "A") None (PyList [("score", ">", VInt 5)])
                       (PyTuple ["id"]) None)
              example_entities [entity 3 9] eq_refl) as (_ & H & _).
  apply H. simpl. auto.
Defined.

Lemma sort_passes_nil (orders : list string) : sort_passes orders [] = Ok [].
Proof.
  induction orders as [|k r IH]; simpl; [reflexivity|].
  unfold _sort_by_property_name.
  destruct (strip_sign k) as [[|] name]; simpl; exact IH.
Qed.

(** X4. On an empty list the evaluator has nothing to look at: it raises
    the key-order [ValueError] for a query without kind whose order is not
    [('__key__',)], and returns the empty list for every other query,
    also one whose filters name an unsupported operator. *)
Theorem apply_to_empty_list :
  forall (query : Query),
    apply_query_to_models query []
    = if is_None (q_kind query) && negb (is_key_order (q_order query))
      then Raise (ValueError key_order_message)
      else Ok [].
Proof.
  intro query. unfold apply_query_to_models.
  destruct (is_None (q_kind query) && negb (is_key_order (q_order query)));
    [reflexivity|].
  assert (H1 : kind_pass query [] = Ok []).
  { unfold kind_pass. now destruct (str_truthy (q_kind query)). }
  assert (H2 : namespace_pass query [] = Ok []).
  { unfold namespace_pass. now destruct (str_truthy (q_namespace query)). }
  assert (H3 : filters_pass query [] = Ok []).
  { unfold filters_pass. now destruct (seq_truthy (q_filters query)). }
  assert (H4 : order_pass query [] = Ok []).
  { unfold order_pass. destruct (seq_truthy (q_order query));
      [apply sort_passes_nil | reflexivity]. }
  rewrite H1. simpl. rewrite H2. simpl. rewrite H3. simpl. rewrite H4. simpl.
  f_equal. unfold limit_pass, del_from.
  destruct (int_truthy (q_limit query)); [|reflexivity].
  destruct (q_limit query) as [n|]; [|reflexivity].
  destruct (n <? 0); apply firstn_nil.
Qed.

Lemma sortable_incl (orders : list string) (l l' : list PyObj) :
  (forall m, In m l' -> In m l) -> sortable orders l -> sortable orders l'.
Proof.
  intros Hincl S k Hk. destruct (S k Hk) as [Hkey Hcmp]. split.
  - intros m Hm. apply Hkey. now apply Hincl.
  - intros a b Ha Hb. apply Hcmp; now apply Hincl.
Qed.

Lemma apply_query_to_models_total (query : Query) (l : list PyObj) :
  is_None (q_kind query) && negb (is_key_order (q_order query)) = false ->
  (forall x, In x l -> exists m k, x = PModel m /\ model_key m = Some k) ->
  (forall m f, In m l -> In f (seq_items (q_filters query)) ->
     exists b, eval_filter m f = Ok b) ->
  sortable (seq_items (q_order query)) l ->
  exists l', apply_query_to_models query l = Ok l'.
Proof.
  intros Hvalid Hmodels Hfilters Hsort. unfold apply_query_to_models.
  rewrite Hvalid.
  assert (H1 : exists l1, kind_pass query l = Ok l1).
  { unfold kind_pass. destruct (str_truthy (q_kind query)); [|eauto].
    apply filterM_total. intros x Hx.
    destruct (Hmodels x Hx) as (m & k & -> & _). simpl. eauto. }
  destruct H1 as [l1 H1]. rewrite H1. simpl.
  assert (I1 : forall m, In m l1 -> In m l).
  { intros m Hm. rewrite (kind_pass_filter _ _ _ H1) in Hm.
    now apply filter_In in Hm. }
  assert (H2 : exists l2, namespace_pass query l1 = Ok l2).
  { unfold namespace_pass. destruct (str_truthy (q_namespace query)); [|eauto].
    apply filterM_total. intros x Hx.
    destruct (Hmodels x (I1 x Hx)) as (m & k & -> & Hk). simpl.
    rewrite Hk. simpl. eauto. }
  destruct H2 as [l2 H2]. rewrite H2. simpl.
  assert (I2 : forall m, In m l2 -> In m l).
  { intros m Hm. rewrite (namespace_pass_filter _ _ _ H2) in Hm.
    apply filter_In in Hm. now apply I1. }
  assert (H3 : exists l3, filters_pass query l2 = Ok l3).
  { unfold filters_pass. destruct (seq_truthy (q_filters query)); [|eauto].
    apply filterM_total. intros m Hm. apply py_all_total.
    intros f Hf. apply Hfilters; auto. }
  destruct H3 as [l3 H3]. rewrite H3. simpl.
  assert (I3 : forall m, In m l3 -> In m l).
  { intros m Hm. rewrite (filters_pass_filter _ _ _ H3) in Hm.
    apply filter_In in Hm. now apply I2. }
  assert (H4 : exists l4, order_pass query l3 = Ok l4).
  { unfold order_pass. destruct (seq_truthy (q_order query)); [|eauto].
    apply sort_passes_total. exact (sortable_incl _ _ _ I3 Hsort). }
  destruct H4 as [l4 H4]. rewrite H4. simpl. eauto.
Qed.

(** X5. [apply_query_to_models] returns, with the matching models in the
    asked order and cut by the limit, whenever the query passes the
    key-order check, every element of the list is a model with a key,
    every filter can be evaluated on every model, and the models can be
    sorted by every order key. *)
Theorem apply_returns_on_well_formed_input :
  forall (query : Query) (model_list : list PyObj),
    is_None (q_kind query) && negb (is_key_order (q_order query)) = false ->
    (forall x, In x model_list ->
       exists m k, x = PModel m /\ model_key m = Some k) ->
    (forall m f, In m model_list -> In f (seq_items (q_filters query)) ->
       exists b, eval_filter m f = Ok b) ->
    sortable (seq_items (q_order query)) model_list ->
    apply_query_to_models query model_list
    = Ok (limit_pass query
            (ordered query (filter (matches query) model_list))).
Proof.
  intros query model_list Hvalid Hmodels Hfilters Hsort.
  destruct (apply_query_to_models_total query model_list
              Hvalid Hmodels Hfilters Hsort) as [l' H].
  rewrite H. f_equal. now apply apply_query_to_models_result.
Qed.

Lemma example_entities_sortable_by_id : sortable ["id"] example_entities.
Proof.
  intros k [<-|[]]. split.
  - intros m [<-|[<-|[<-|[]]]]; eexists; reflexivity.
  - intros a b [<-|[<-|[<-|[]]]] [<-|[<-|[<-|[]]]]; eexists; reflexivity.
Qed.

Lemma apply_returns_on_well_formed_input_witness :
  apply_query_to_models
    (mkQuery (Some "A") None (PyList [("score", "=", VInt 5)])
             (PyTuple ["id"]) None)
    example_entities
  = Ok [entity 1 5; entity 2 5].
Proof.
  rewrite (apply_returns_on_well_formed_input
             (mkQuery (Some "A") None (PyList [("score", "=", VInt 5)])
                      (PyTuple ["id"]) None)
             example_entities eq_refl).
  - reflexivity.
  - intros x [<-|[<-|[<-|[]]]]; eexists; eexists; split; reflexivity.
  - intros m f [<-|[<-|[<-|[]]]] [<-|[]]; eexists; reflexivity.
  - exact example_entities_sortable_by_id.
Defined.

Lemma apply_limit_last (query : Query) (l : list PyObj) :
  apply_query_to_models query l
  = (sorted <- apply_query_to_models (with_limit query None) l ;;
     Ok (limit_pass query sorted)).
Proof.
  unfold apply_query_to_models, with_limit, kind_pass, namespace_pass,
    filters_pass, order_pass. simpl.
  destruct (is_None (q_kind query) && negb (is_key_order (q_order query)));
    [reflexivity|].
  repeat match goal with
         | |- bind ?c _ = _ => destruct c; simpl; [|reflexivity]
         end.
  reflexivity.
Qed.

(** X6. A negative limit [n] does not cap the list at a length: [del
    model_list[n:]] removes the last [-n] models of the list in its final
    order (all of them when the list has no more than [-n]). *)
Theorem negative_limit_drops_from_the_end :
  forall (query : Query) (model_list : list PyObj) (n : Z),
    q_limit query = Some n ->
    n < 0 ->
    apply_query_to_models query model_list
    = (sorted <- apply_query_to_models (with_limit query None) model_list ;;
       Ok (firstn (List.length sorted - Z.to_nat (- n)) sorted)).
Proof.
  intros query model_list n Hn Hneg. rewrite apply_limit_last.
  destruct (apply_query_to_models (with_limit query None) model_list)
    as [sorted|e]; simpl; [|reflexivity].
  f_equal. unfold limit_pass, int_truthy, del_from. rewrite Hn.
  destruct (Z.eqb_spec n 0); [lia|]. simpl.
  destruct (Z.ltb_spec n 0); [|lia].
  f_equal. lia.
Qed.

Lemma negative_limit_drops_from_the_end_witness :
  apply_query_to_models
    (mkQuery (Some "A") None PyNone (PyTuple ["id"]) (Some (-1)))
    example_entities
  = Ok [entity 1 5; entity 2 5].
Proof.
  rewrite (negative_limit_drops_from_the_end
             (mkQuery (Some "A") None PyNone (PyTuple ["id"]) (Some (-1)))
             example_entities (-1) eq_refl ltac:(lia)).
  reflexivity.
Defined.

(* ------------------------------------------------------------------ *)
(** ** The comparison operators *)






Lemma _get_operator_unsupported (comp : string) :
  ~ In comp supported_operators ->
  _get_operator comp = Raise (ValueError (unsupported_operator_message comp)).
Proof.
  intro H. unfold _get_operator, supported_operators in *. simpl in H.
  repeat match goal with
         | |- context [String.eqb comp ?s] =>
             destruct (String.eqb_spec comp s); [exfalso; subst; tauto|]
         end.
  reflexivity.
Qed.



Lemma filterM_all_false {A : Type} (f : A -> Result bool) (l : list A) :
  (forall x, In x l -> f x = Ok false) -> filterM f l = Ok [].
Proof.
  induction l as [|x r IH]; intro H; simpl; [reflexivity|].
  rewrite (H x (or_introl eq_refl)). simpl.
  rewrite IH; [reflexivity|]. intros y Hy. apply H. now right.
Qed.

(** X8. An unsupported operator in the filters is found only when it is
    evaluated: as the first filter it makes the filter step raise
    [ValueError] on every non-empty list, before any property is read;
    behind a filter that is false for every model it is never reached and
    the step returns the empty list. *)
Theorem unsupported_operator_is_found_on_evaluation :
  forall (query : Query) (model_list : list PyObj)
         (name comp : string) (value : Value),
    ~ In comp supported_operators ->
    (forall rest,
       seq_items (q_filters query) = (name, comp, value) :: rest ->
       model_list <> [] ->
       filters_pass query model_list
       = Raise (ValueError (unsupported_operator_message comp)))
    /\ (forall f0 rest,
          seq_items (q_filters query) = f0 :: (name, comp, value) :: rest ->
          (forall m, In m model_list -> eval_filter m f0 = Ok false) ->
          filters_pass query model_list = Ok []).
Proof.
  intros query model_list name comp value Hcomp. split.
  - intros rest Hitems Hne. unfold filters_pass, seq_truthy.
    rewrite Hitems. destruct model_list as [|m r]; [contradiction|].
    simpl. unfold eval_filter at 1.
    now rewrite (_get_operator_unsupported comp Hcomp).
  - intros f0 rest Hitems Hfalse. unfold filters_pass, seq_truthy.
    rewrite Hitems. apply filterM_all_false. intros m Hm. simpl.
    now rewrite (Hfalse m Hm).
Qed.

Lemma unsupported_operator_is_found_on_evaluation_witness :
  filters_pass
    (mkQuery (Some "A") None (PyList [("score", "!=", VInt 5)]) PyNone None)
    example_entities
  = Raise (ValueError "Unsupported comparison operator: !=")
  /\ filters_pass
       (mkQuery (Some "A") None
                (PyList [("score", ">", VInt 9); ("score", "!=", VInt 5)])
                PyNone None)
       example_entities
     = Ok [].
Proof.
  assert (Hbad : ~ In "!=" supported_operators).
  { simpl. intros [H|[H|[H|[H|[H|[]]]]]]; discriminate. }
  split.
  - destruct (unsupported_operator_is_found_on_evaluation
                (mkQuery (Some "A") None (PyList [("score", "!=", VInt 5)])
                         PyNone None)
                example_entities "score" "!=" (VInt 5) Hbad) as [H _].
    apply (H [] eq_refl). discriminate.
  - destruct (unsupported_operator_is_found_on_evaluation
                (mkQuery (Some "A") None
                   (PyList [("score", ">", VInt 9); ("score", "!=", VInt 5)])
                   PyNone None)
                example_entities "score" "!=" (VInt 5) Hbad) as [_ H].
    apply (H ("score", ">", VInt 9) [] eq_refl).
    intros m [<-|[<-|[<-|[]]]]; reflexivity.
Defined.

(* ------------------------------------------------------------------ *)
(** ** Order keys between the converter and the evaluator *)

(** X9. The evaluator reads an order key back as the converter wrote it:
    for a descending order, and for an ascending order on a property whose
    name does not start with [-], [strip_sign] of the flat key gives the
    direction and the property name, so the pass sorts by that property in
    that direction.  An ascending order on a property whose name starts
    with [-] is read as a descending order on the rest of the name. *)
Theorem order_key_is_read_back :
  forall (o : PropertyOrder),
    (is_descending o = true \/ starts_with_dash (prop o) = false ->
     strip_sign (order_key o) = (is_descending o, prop o)
     /\ forall a b,
          key_before (order_key o) a b
          = if is_descending o
            then value_ltb (sort_value b (prop o)) (sort_value a (prop o))
            else value_ltb (sort_value a (prop o)) (sort_value b (prop o)))
    /\ (forall rest,
          direction o = ASCENDING ->
          prop o = String "-"%char rest ->
          strip_sign (order_key o) = (true, rest)).
Proof.
  intros [p d]. unfold order_key, is_descending, key_before. simpl. split.
  - intros [Hd|Hp].
    + destruct d; [discriminate|]. simpl. split; reflexivity.
    + destruct d; simpl.
      * destruct p as [|c p]; [split; reflexivity|].
        unfold strip_sign.
        destruct (Ascii.eqb_spec c "-"%char) as [->|Hc];
          [discriminate Hp|].
        assert (E : match String c p with
                    | String "-"%char rest => (true, rest)
                    | _ => (false, String c p)
                    end = (false, String c p)).
        { destruct c as [[|] [|] [|] [|] [|] [|] [|] [|]];
            try reflexivity. now elim Hc. }
        rewrite E. split; reflexivity.
      * split; reflexivity.
  - intros rest -> ->. reflexivity.
Qed.

Lemma order_key_is_read_back_witness :
  strip_sign (order_key (mkOrder "score" DESCENDING)) = (true, "score")
  /\ strip_sign (order_key (mkOrder "id" ASCENDING)) = (false, "id")
  /\ strip_sign (order_key (mkOrder "-x" ASCENDING)) = (true, "x").
Proof.
  split; [|split].
  - destruct (order_key_is_read_back (mkOrder "score" DESCENDING)) as [H _].
    destruct (H (or_introl eq_refl)) as [E _]. exact E.
  - destruct (order_key_is_read_back (mkOrder "id" ASCENDING)) as [H _].
    destruct (H (or_intror eq_refl)) as [E _]. exact E.
  - destruct (order_key_is_read_back (mkOrder "-x" ASCENDING)) as [_ H].
    exact (H "x" eq_refl eq_refl).
Defined.

(* ------------------------------------------------------------------ *)
(** ** Converted queries in the evaluator *)

Lemma raises_only_weaken {A : Type} (P Q : Exc -> Prop) (r : Result A) :
  (forall e, P e -> Q e) -> raises_only P r -> raises_only Q r.
Proof. intro H. destruct r; simpl; auto. Qed.

Lemma kind_pass_raises (P : Exc -> Prop) (query : Query) (l : list PyObj) :
  (forall msg, P (TypeError msg)) -> raises_only P (kind_pass query l).
Proof.
  intro HP. unfold kind_pass. destruct (str_truthy (q_kind query)); [|exact I].
  apply raises_only_filterM. intros [m|c|v]; simpl; auto.
Qed.

Lemma namespace_pass_raises (P : Exc -> Prop) (query : Query) (l : list PyObj) :
  (forall attr, P (AttributeError attr)) ->
  raises_only P (namespace_pass query l).
Proof.
  intro HP. unfold namespace_pass.
  destruct (str_truthy (q_namespace query)); [|exact I].
  apply raises_only_filterM. intros [m|c|v]; simpl; auto.
  destruct (model_key m); simpl; auto.
Qed.

(** Without a failed key-order check, no later step raises its error. *)
Lemma passes_do_not_raise_key_order_error (query : Query) (l : list PyObj) :
  raises_only not_key_order_error
    (l1 <- kind_pass query l ;;
     l2 <- namespace_pass query l1 ;;
     l3 <- filters_pass query l2 ;;
     l4 <- order_pass query l3 ;;
     Ok (limit_pass query l4)).
Proof.
  apply raises_only_bind; [apply kind_pass_raises; discriminate|].
  intro l1. apply raises_only_bind;
    [apply namespace_pass_raises; discriminate|].
  intro l2. apply raises_only_bind.
  { unfold filters_pass. destruct (seq_truthy (q_filters query)); [|exact I].
    apply raises_only_filterM. intro m. apply raises_only_py_all.
    apply eval_filter_raises. }
  intro l3. apply raises_only_bind; [|intro; exact I].
  unfold order_pass. destruct (seq_truthy (q_order query)); [|exact I].
  apply sort_passes_raises.
Qed.

Lemma apply_raises_key_order_error_iff (query : Query) (l : list PyObj) :
  apply_query_to_models query l = Raise (ValueError key_order_message)
  <-> is_None (q_kind query) && negb (is_key_order (q_order query)) = true.
Proof.
  unfold apply_query_to_models.
  destruct (is_None (q_kind query) && negb (is_key_order (q_order query)));
    split; auto; try discriminate.
  intro H. pose proof (passes_do_not_raise_key_order_error query l) as R.
  rewrite H in R. now elim R.
Qed.

(** X10. A query that comes out of [get_beam_query_from_ndb_query] fails
    the key-order check of [apply_query_to_models] exactly when the ndb
    query has no kind and has an order specification other than the
    single ascending [__key__] order; a converted query never carries a
    limit. *)
Theorem converted_query_and_key_order_check :
  forall (ndb : NdbQuery) (query : Query) (model_list : list PyObj),
    get_beam_query_from_ndb_query ndb = Ok query ->
    (apply_query_to_models query model_list
     = Raise (ValueError key_order_message)
     <-> ndb_kind ndb = None
         /\ exists o, ndb_orders ndb = Some o
                      /\ map order_key (order_list o) <> ["__key__"])
    /\ q_limit query = None.
Proof.
  intros ndb query model_list H. unfold get_beam_query_from_ndb_query in H.
  destruct (match ndb_filters ndb with
            | Some node =>
                fs <- _get_beam_filters_from_ndb_filter_node node ;;
                Ok (PyList fs)
            | None => Ok PyNone
            end) as [filters|e]; simpl in H; [|discriminate].
  injection H as <-. split; [|reflexivity].
  rewrite apply_raises_key_order_error_iff. cbn [q_kind q_order].
  destruct (ndb_kind ndb) as [kind|]; cbn [is_None andb].
  - split; [discriminate | intros [E _]; discriminate].
  - destruct (ndb_orders ndb) as [o|].
    + assert (Eo : _get_beam_order_from_ndb_order o
                   = PyTuple (map order_key (order_list o)))
        by (now destruct o).
      rewrite Eo. rewrite negb_true_iff. split.
      * intro Hk. split; [reflexivity|]. exists o. split; [reflexivity|].
        intro E. rewrite E in Hk. discriminate.
      * intros [_ (o' & Ho' & Hne)]. injection Ho' as <-.
        destruct (is_key_order (PyTuple (map order_key (order_list o))))
          eqn:E; [|reflexivity].
        apply is_key_order_iff in E. injection E as E. contradiction.
    + split; [discriminate|]. intros [_ (o & Ho & _)]. discriminate.
Qed.

Lemma converted_query_and_key_order_check_witness :
  apply_query_to_models
    (mkQuery None None PyNone (PyTuple ["-score"]) None) example_entities
  = Raise (ValueError key_order_message).
Proof.
  destruct (converted_query_and_key_order_check
              (mkNdbQuery None None None
                 (Some (SingleOrder (mkOrder "score" DESCENDING))))
              (mkQuery None None PyNone (PyTuple ["-score"]) None)
              example_entities eq_refl) as [H _].
  apply H. split; [reflexivity|]. eexists. split; [reflexivity|].
  discriminate.
Defined.

Section TypeAndAttributeErrors.

Variable P : Exc -> Prop.
Hypothesis P_TypeError : forall msg, P (TypeError msg).
Hypothesis P_AttributeError : forall attr, P (AttributeError attr).

Lemma pairs_cmp_raises_only (l1 l2 : list (string * KeyId)) :
  raises_only P (pairs_cmp l1 l2).
Proof.
  revert l2. induction l1 as [|p r1 IH]; intros [|q r2]; simpl; try exact I.
  apply raises_only_bind.
  - unfold pair_cmp. destruct (String.compare (fst p) (fst q));
      try exact I.
    destruct (snd p), (snd q); simpl; try exact I; apply P_TypeError.
  - intros [| |]; [apply IH | exact I | exact I].
Qed.

Lemma py_compare_raises_only (a b : Value) : raises_only P (py_compare a b).
Proof.
  destruct a, b; simpl; try exact I; try apply P_TypeError.
  unfold key_cmp.
  destruct (String.compare (key_app k) (key_app k0)); try exact I.
  destruct (String.compare (key_namespace k) (key_namespace k0)); try exact I.
  apply pairs_cmp_raises_only.
Qed.

Lemma get_model_property_raises_only (m : PyObj) (name : string) :
  raises_only P (get_model_property m name).
Proof.
  unfold get_model_property, get_model_id, get_model_key, getattr.
  destruct (String.eqb name "id"); [|destruct (String.eqb name "__key__")];
    destruct m as [m|c|v]; simpl; try exact I; try apply P_TypeError.
  - now destruct (model_key m).
  - destruct (String.eqb name "key"); [exact I|].
    destruct (assoc name (model_properties m));
      [exact I | apply P_AttributeError].
Qed.

Lemma eval_filter_raises_only (m : PyObj) (name comp : string) (value : Value) :
  In comp supported_operators ->
  raises_only P (eval_filter m (name, comp, value)).
Proof.
  intro Hcomp. unfold eval_filter.
  assert (Hcmp : forall g : comparison -> bool,
             raises_only P
               (v <- get_model_property m name ;;
                c <- py_compare v value ;; Ok (g c))).
  { intro g. apply raises_only_bind; [apply get_model_property_raises_only|].
    intro v. apply raises_only_bind; [apply py_compare_raises_only|].
    intro; exact I. }
  simpl in Hcomp.
  destruct Hcomp as [<-|[<-|[<-|[<-|[<-|[]]]]]]; simpl;
    try apply Hcmp.
  apply raises_only_bind; [apply get_model_property_raises_only|].
  intro; exact I.
Qed.

Lemma sort_passes_raises_only (orders : list string) (l : list PyObj) :
  raises_only P (sort_passes orders l).
Proof.
  revert l. induction orders as [|k r IH]; intro l; simpl; [exact I|].
  apply raises_only_bind; [|exact IH].
  unfold _sort_by_property_name. destruct (strip_sign k) as [reverse name].
  unfold list_sort. apply raises_only_bind.
  - apply raises_only_mapM. intro x. apply raises_only_bind;
      [apply get_model_property_raises_only | intro; exact I].
  - intro keyed. apply raises_only_bind; [|intro; exact I].
    apply raises_only_sortM. intros a b. unfold py_lt.
    apply raises_only_bind; [apply py_compare_raises_only | intro; exact I].
Qed.

End TypeAndAttributeErrors.

Lemma flat_filters_supported (node : Node) (fs : list Filter) :
  _get_beam_filters_from_ndb_filter_node node = Ok fs ->
  forall f, In f fs -> In (snd (fst f)) supported_operators.
Proof.
  assert (Hmap : forall cs f, In f (map flat_filter cs) ->
                              In (snd (fst f)) supported_operators).
  { intros cs f Hf. apply in_map_iff in Hf. destruct Hf as (c & <- & _).
    unfold flat_filter. cbn [fst snd]. destruct (cmp_op c); simpl; tauto. }
  destruct node as [c|c1 c2 rest| | | |]; simpl; intro H; try discriminate;
    injection H as <-; intros f Hf.
  - exact (Hmap [c] f Hf).
  - exact (Hmap (c1 :: c2 :: rest) f Hf).
Qed.

(** X11. Every filter that the converter produces carries one of the five
    operators the evaluator supports, so on a converted query the
    evaluator never raises the unsupported-operator error: what it can
    raise is the key-order [ValueError], a [TypeError] or an
    [AttributeError]. *)
Theorem converted_query_uses_supported_operators :
  forall (ndb : NdbQuery) (query : Query) (model_list : list PyObj),
    get_beam_query_from_ndb_query ndb = Ok query ->
    (forall f, In f (seq_items (q_filters query)) ->
       In (snd (fst f)) supported_operators)
    /\ raises_only
         (fun e => e = ValueError key_order_message
                   \/ is_type_or_attribute_error e)
         (apply_query_to_models query model_list).
Proof.
  intros ndb query model_list H.
  assert (Hops : forall f, In f (seq_items (q_filters query)) ->
                           In (snd (fst f)) supported_operators).
  { unfold get_beam_query_from_ndb_query in H.
    destruct (ndb_filters ndb) as [node|]; simpl in H.
    - destruct (_get_beam_filters_from_ndb_filter_node node) as [fs|e] eqn:E;
        simpl in H; [|discriminate].
      injection H as <-. simpl. exact (flat_filters_supported node fs E).
    - injection H as <-. simpl. tauto. }
  split; [exact Hops|].
  set (P := fun e => e = ValueError key_order_message
                     \/ is_type_or_attribute_error e).
  assert (PT : forall msg, P (TypeError msg)) by (intro; right; exact I).
  assert (PA : forall attr, P (AttributeError attr)) by (intro; right; exact I).
  unfold apply_query_to_models.
  destruct (is_None (q_kind query) && negb (is_key_order (q_order query)));
    [left; reflexivity|].
  apply raises_only_bind; [now apply kind_pass_raises|].
  intro l1. apply raises_only_bind; [now apply namespace_pass_raises|].
  intro l2. apply raises_only_bind.
  { unfold filters_pass. destruct (seq_truthy (q_filters query)); [|exact I].
    apply raises_only_filterM. intro m.
    assert (Hall : forall fs,
               (forall f, In f fs -> In (snd (fst f)) supported_operators) ->
               raises_only P (py_all (eval_filter m) fs)).
    { induction fs as [|[[name comp] value] r IH]; intro Hs; simpl;
        [exact I|].
      apply raises_only_bind.
      - apply eval_filter_raises_only; auto.
        exact (Hs (name, comp, value) (or_introl eq_refl)).
      - intros [|]; [|exact I]. apply IH. intros f Hf. apply Hs. now right. }
    now apply Hall. }
  intro l3. apply raises_only_bind; [|intro; exact I].
  unfold order_pass. destruct (seq_truthy (q_order query)); [|exact I].
  now apply sort_passes_raises_only.
Qed.

Lemma converted_query_uses_supported_operators_witness :
  In ">=" supported_operators.
Proof.
  destruct (converted_query_uses_supported_operators
              (mkNdbQuery (Some "A") None
                 (Some (FilterNode
                          (mkComparison "score" GREATER_THAN_OR_EQUAL (VInt 5))))
                 None)
              (mkQuery (Some "A") None (PyList [("score", ">=", VInt 5)])
                       PyNone None)
              example_entities eq_refl) as [H _].
  exact (H ("score", ">=", VInt 5) (or_introl eq_refl)).
Defined.

(* ------------------------------------------------------------------ *)
(** ** What the entity round trip keeps and what it drops *)

Lemma round_trip_of_keyed_model (project_id app_id : string)
    (registry : list (string * ModelClass)) (model : Model) (k : Key) :
  model_key model = Some k ->
  round_trip project_id app_id registry model
  = (cls <- _lookup_model registry (key_kind k) ;;
     new_model app_id cls (key_id k) (model_properties model)).
Proof.
  intro Hkey. unfold round_trip, get_beam_entity_from_model. rewrite Hkey.
  simpl. unfold get_model_from_beam_entity, set_properties. simpl.
  rewrite to_client_key_flat, dict_update_empty. reflexivity.
Qed.



Lemma _lookup_model_unregistered (registry : list (string * ModelClass))
    (kind : string) :
  (forall c, ~ In (kind, c) registry) ->
  _lookup_model registry kind = Raise (KindError kind).
Proof.
  unfold _lookup_model.
  induction registry as [|[k c] r IH]; intro H; simpl; [reflexivity|].
  destruct (String.eqb_spec k kind) as [->|_].
  - elim (H c). now left.
  - apply IH. intros c' Hc'. apply (H c'). now right.
Qed.

(** X13. How the round trip fails for a model with a key: when the
    registry holds no class for the kind of the key it raises [KindError]
    with that kind; when it holds one but the model has a property called
    [id], the constructor call raises [TypeError], since [id] is then
    given twice. *)
Theorem round_trip_errors :
  forall (project_id app_id : string) (registry : list (string * ModelClass))
         (model : Model) (k : Key),
    model_key model = Some k ->
    ((forall c, ~ In (key_kind k, c) registry) ->
     round_trip project_id app_id registry model
     = Raise (KindError (key_kind k)))
    /\ (forall cls,
          _lookup_model registry (key_kind k) = Ok cls ->
          has_name "id" (model_properties model) = true ->
          round_trip project_id app_id registry model
          = Raise (TypeError "got multiple values for keyword argument 'id'")).
Proof.
  intros project_id app_id registry model k Hkey.
  rewrite (round_trip_of_keyed_model _ _ _ _ _ Hkey). split.
  - intro Hno. now rewrite (_lookup_model_unregistered _ _ Hno).
  - intros cls Hreg Hid. rewrite Hreg. simpl. unfold new_model.
    now rewrite Hid.
Qed.

Lemma round_trip_errors_witness :
  round_trip "oppia" "app" [("B", mkClass "B" "B")]
    (mkModel class_A (Some (mkKey "app" EmptyString [] "A" (IdInt 2))) [])
  = Raise (KindError "A")
  /\ round_trip "oppia" "app" [("A", class_A)]
       (mkModel class_A (Some (mkKey "app" EmptyString [] "A" (IdInt 2)))
                [("id", VInt 2)])
     = Raise (TypeError "got multiple values for keyword argument 'id'").
Proof.
  split.
  - destruct (round_trip_errors "oppia" "app" [("B", mkClass "B" "B")]
                (mkModel class_A
                   (Some (mkKey "app" EmptyString [] "A" (IdInt 2))) [])
                _ eq_refl) as [H _].
    apply H. intros c [E|[]]. discriminate.
  - destruct (round_trip_errors "oppia" "app" [("A", class_A)]
                (mkModel class_A
                   (Some (mkKey "app" EmptyString [] "A" (IdInt 2)))
                   [("id", VInt 2)])
                _ eq_refl) as [_ H].
    exact (H class_A eq_refl eq_refl).
Defined.

(* ------------------------------------------------------------------ *)
(** ** clone_model *)

Lemma assoc_app (name : string) (d1 d2 : list (string * Value)) :
  assoc name (d1 ++ d2)
  = match assoc name d1 with
    | Some v => Some v
    | None => assoc name d2
    end.
Proof.
  induction d1 as [|[n v] r IH]; simpl; [reflexivity|].
  destruct (String.eqb n name); [reflexivity | exact IH].
Qed.

Lemma has_name_assoc (name : string) (d : list (string * Value)) :
  has_name name d = false <-> assoc name d = None.
Proof.
  unfold has_name. induction d as [|[n v] r IH]; simpl; [tauto|].
  destruct (String.eqb n name); simpl; [split; discriminate | exact IH].
Qed.

Lemma assoc_dict_update (name : string) (d new : list (string * Value)) :
  assoc name (dict_update d new)
  = match assoc name new with
    | Some v => Some v
    | None => assoc name d
    end.
Proof.
  unfold dict_update. rewrite assoc_app.
  destruct (assoc name new) as [v|] eqn:E; [reflexivity|].
  apply has_name_assoc in E.
  induction d as [|[n v] r IH]; simpl; [reflexivity|].
  destruct (String.eqb_spec n name) as [->|Hn].
  - rewrite E. simpl. now rewrite String.eqb_refl.
  - destruct (negb (has_name n new)); simpl; [|exact IH].
    destruct (String.eqb_spec n name); [contradiction | exact IH].
Qed.

Lemma has_name_dict_update (name : string) (d new : list (string * Value)) :
  has_name name d = false -> has_name name new = false ->
  has_name name (dict_update d new) = false.
Proof.
  intros Hd Hn. apply has_name_assoc. rewrite assoc_dict_update.
  apply has_name_assoc in Hd, Hn. now rewrite Hn.
Qed.

Lemma dict_remove_absent (name : string) (d : list (string * Value)) :
  has_name name d = false -> dict_remove name d = d.
Proof.
  unfold dict_remove, has_name. induction d as [|[n v] r IH]; simpl;
    [reflexivity|].
  destruct (String.eqb n name); simpl; [discriminate|].
  intro H. now rewrite IH.
Qed.

Lemma find_none_iff {A : Type} (f : A -> bool) (l : list A) :
  (forall x, In x l -> f x = false) -> find f l = None.
Proof.
  induction l as [|x r IH]; intro H; simpl; [reflexivity|].
  rewrite (H x (or_introl eq_refl)). apply IH. intros y Hy. apply H.
  now right.
Qed.

Lemma has_name_in_names (name : string) (d : list (string * Value)) :
  has_name name d = existsb (String.eqb name) (map fst d).
Proof.
  unfold has_name. induction d as [|[n v] r IH]; simpl; [reflexivity|].
  now rewrite IH, (String.eqb_sym n name).
Qed.

Lemma has_name_In (nv : string * Value) (d : list (string * Value)) :
  In nv d -> has_name (fst nv) d = true.
Proof.
  unfold has_name. intro H. apply existsb_exists. exists nv.
  split; [exact H | apply String.eqb_refl].
Qed.

(** X14. Cloning a model with overrides for some of its properties gives
    a model of the same class in which every overridden property has the
    new value and every other property the value of the original.  Its id
    is the given id when that is truthy and the id of the original
    otherwise (so [id=0] and [id=''] keep the original id); its key is a
    root key of the class's kind, without the parent and the namespace of
    the original key, and a clone of a model without key that is given no
    id has no key. *)
Theorem clone_model_overrides_and_keeps :
  forall (app_id : string) (m : Model) (new_id : option KeyId)
         (new_values : list (string * Value)),
    has_name "id" (model_properties m) = false ->
    (forall nv, In nv new_values ->
       has_name (fst nv) (model_properties m) = true) ->
    exists m',
      clone_model app_id (PModel m) new_id new_values = Ok m'
      /\ model_class m' = model_class m
      /\ (forall name,
            assoc name (model_properties m')
            = match assoc name new_values with
              | Some v => Some v
              | None => assoc name (model_properties m)
              end)
      /\ get_model_id (PModel m')
         = match new_id with
           | Some i => if keyid_truthy i then Ok (id_value i)
                       else get_model_id (PModel m)
           | None => get_model_id (PModel m)
           end
      /\ (forall k', model_key m' = Some k' ->
            key_parent k' = [] /\ key_namespace k' = EmptyString
            /\ key_app k' = app_id
            /\ key_kind k' = class_kind (model_class m)).
Proof.
  intros app_id m new_id new_values Hid Hnames.
  assert (Hnoid : has_name "id" new_values = false).
  { destruct (has_name "id" new_values) eqn:E; [|reflexivity].
    unfold has_name in E. apply existsb_exists in E.
    destruct E as (nv & Hnv & Heq). apply String.eqb_eq in Heq.
    pose proof (Hnames nv Hnv) as Hp. rewrite Heq, Hid in Hp. discriminate. }
  assert (Hbody : forall model_id,
             construct_model app_id (model_class m)
               (map fst (model_properties m)) model_id
               (dict_update (model_properties m) (dict_remove "id" new_values))
             = Ok (mkModel (model_class m)
                     (option_map
                        (fun i => mkKey app_id EmptyString []
                                        (class_kind (model_class m)) i)
                        model_id)
                     (dict_update (model_properties m) new_values))).
  { intro model_id. unfold construct_model.
    rewrite (dict_remove_absent _ _ Hnoid).
    rewrite (has_name_dict_update _ _ _ Hid Hnoid).
    rewrite find_none_iff; [reflexivity|].
    intros nv Hnv. apply negb_false_iff. rewrite <- has_name_in_names.
    unfold dict_update in Hnv. apply in_app_or in Hnv.
    destruct Hnv as [Hnv|Hnv]; [now apply Hnames|].
    apply filter_In in Hnv. now apply has_name_In. }
  assert (Hown : model_key_id (PModel m) = Ok (option_map key_id (model_key m))).
  { unfold model_key_id. simpl. now destruct (model_key m). }
  assert (Hres : exists model_id,
             clone_model app_id (PModel m) new_id new_values
             = Ok (mkModel (model_class m)
                     (option_map
                        (fun i => mkKey app_id EmptyString []
                                        (class_kind (model_class m)) i)
                        model_id)
                     (dict_update (model_properties m) new_values))
             /\ model_id = match new_id with
                           | Some i => if keyid_truthy i then Some i
                                       else option_map key_id (model_key m)
                           | None => option_map key_id (model_key m)
                           end).
  { unfold clone_model. destruct new_id as [i|].
    - destruct (keyid_truthy i); [|rewrite Hown]; simpl; rewrite Hbody; eauto.
    - rewrite Hown. simpl. rewrite Hbody. eauto. }
  destruct Hres as (model_id & Hclone & Hmid).
  eexists. split; [exact Hclone|]. simpl.
  split; [reflexivity|]. split; [intro name; apply assoc_dict_update|].
  split.
  - subst model_id. destruct new_id as [i|];
      [destruct (keyid_truthy i)|]; simpl; try reflexivity;
      now destruct (model_key m).
  - intros k' Hk'. destruct model_id as [i|]; simpl in Hk'; [|discriminate].
    injection Hk' as <-. simpl. auto.
Qed.

Lemma clone_model_overrides_and_keeps_witness :
  exists m',
    clone_model "app"
      (PModel (mkModel class_A
                 (Some (mkKey "app" "ns" [("P", IdName "p")] "A" (IdInt 2)))
                 [("score", VInt 5); ("name", VStr "x")]))
      (Some (IdInt 0)) [("score", VInt 7)]
    = Ok m'
    /\ assoc "score" (model_properties m') = Some (VInt 7)
    /\ assoc "name" (model_properties m') = Some (VStr "x")
    /\ get_model_id (PModel m') = Ok (VInt 2).
Proof.
  destruct (clone_model_overrides_and_keeps "app"
              (mkModel class_A
                 (Some (mkKey "app" "ns" [("P", IdName "p")] "A" (IdInt 2)))
                 [("score", VInt 5); ("name", VStr "x")])
              (Some (IdInt 0)) [("score", VInt 7)] eq_refl)
    as (m' & Hclone & _ & Hprops & Hid & _).
  { intros nv [<-|[]]. reflexivity. }
  exists m'. split; [exact Hclone|].
  split; [exact (Hprops "score")|]. split; [exact (Hprops "name")|].
  exact Hid.
Defined.

(* ------------------------------------------------------------------ *)
(** ** Applying a query twice *)

Lemma stable_sort_of_sorted_list {A : Type} (before : A -> A -> bool)
    (l : list A) :
  StrictWeak before -> sorted_by before l -> stable_sort before l = l.
Proof.
  intros SW S. symmetry. now apply stable_sort_unique.
Qed.

Lemma py_all_of_satisfies_all (m : PyObj) (filters : list Filter) :
  satisfies_all filters m = true ->
  py_all (eval_filter m) filters = Ok true.
Proof.
  unfold satisfies_all. induction filters as [|f r IH]; simpl;
    [reflexivity|].
  unfold satisfies at 1.
  destruct (eval_filter m f) as [[|]|e]; simpl; try discriminate.
  exact IH.
Qed.

(** X15. Applying a query to a list it has already been applied to
    changes nothing, for a query whose limit is absent or not negative
    and models that can be sorted by its order keys: every model left
    still matches, the list is already in order and already short
    enough. *)
Theorem apply_twice_is_apply_once :
  forall (query : Query) (model_list l' : list PyObj),
    (forall n, q_limit query = Some n -> 0 <= n) ->
    sortable (seq_items (q_order query)) model_list ->
    apply_query_to_models query model_list = Ok l' ->
    apply_query_to_models query l' = Ok l'.
Proof.
  intros query model_list l' Hlimit Hsort H.
  pose proof (apply_query_to_models_result _ _ _ H) as Hres.
  destruct (limit_pass_prefix query
              (ordered query (filter (matches query) model_list)))
    as [n Hn].
  rewrite Hn in Hres.
  assert (Hin : forall m, In m l' ->
                          In m model_list /\ matches query m = true).
  { intros m Hm. subst l'. apply In_firstn in Hm. apply ordered_In in Hm.
    now apply filter_In in Hm. }
  assert (Hvalid : is_None (q_kind query)
                   && negb (is_key_order (q_order query)) = false).
  { unfold apply_query_to_models in H.
    destruct (is_None (q_kind query) && negb (is_key_order (q_order query)));
      [discriminate | reflexivity]. }
  unfold apply_query_to_models. rewrite Hvalid.
  assert (H1 : kind_pass query l' = Ok l').
  { unfold kind_pass. destruct (str_truthy (q_kind query)) eqn:E;
      [|reflexivity].
    apply filterM_all_true. intros m Hm. destruct (Hin m Hm) as [_ Hmatch].
    unfold matches in Hmatch. rewrite E in Hmatch.
    apply andb_true_iff in Hmatch. destruct Hmatch as [Hmatch _].
    apply andb_true_iff in Hmatch. destruct Hmatch as [Hk _].
    unfold kind_matches in Hk. destruct (get_model_kind m); simpl;
      [now rewrite Hk | discriminate]. }
  rewrite H1. simpl.
  assert (H2 : namespace_pass query l' = Ok l').
  { unfold namespace_pass. destruct (str_truthy (q_namespace query)) eqn:E;
      [|reflexivity].
    apply filterM_all_true. intros m Hm. destruct (Hin m Hm) as [_ Hmatch].
    unfold matches in Hmatch. rewrite E in Hmatch.
    apply andb_true_iff in Hmatch. destruct Hmatch as [Hmatch _].
    apply andb_true_iff in Hmatch. destruct Hmatch as [_ Hns].
    unfold namespace_matches in Hns. destruct (key_namespace_of m); simpl;
      [now rewrite Hns | discriminate]. }
  rewrite H2. simpl.
  assert (H3 : filters_pass query l' = Ok l').
  { unfold filters_pass. destruct (seq_truthy (q_filters query)) eqn:E;
      [|reflexivity].
    apply filterM_all_true. intros m Hm. destruct (Hin m Hm) as [_ Hmatch].
    unfold matches in Hmatch. rewrite E in Hmatch.
    apply andb_true_iff in Hmatch. destruct Hmatch as [_ Hf].
    now apply py_all_of_satisfies_all. }
  rewrite H3. simpl.
  assert (H4 : order_pass query l' = Ok l').
  { unfold order_pass. destruct (seq_truthy (q_order query)) eqn:E;
      [|reflexivity].
    destruct (sort_passes_total (seq_items (q_order query)) l') as [l4 H4].
    { apply (sortable_incl _ model_list); [|exact Hsort].
      intros m Hm. now apply Hin. }
    rewrite H4. f_equal. apply sort_passes_lexicographic in H4. subst l4.
    apply stable_sort_of_sorted_list; [apply StrictWeak_lex_before|].
    subst l'. apply StronglySorted_firstn. unfold ordered. rewrite E.
    apply stable_sort_sorted, StrictWeak_lex_before. }
  rewrite H4. simpl. f_equal.
  unfold limit_pass in *. destruct (int_truthy (q_limit query)) eqn:El;
    [|reflexivity].
  destruct (q_limit query) as [k|] eqn:Ek; [|reflexivity].
  specialize (Hlimit k eq_refl). unfold del_from in *.
  destruct (Z.ltb_spec k 0); [lia|].
  rewrite Hres at 2. rewrite Hres, <- Hn.
  rewrite firstn_firstn. now rewrite Nat.min_id.
Qed.

Lemma apply_twice_is_apply_once_witness :
  apply_query_to_models
    (mkQuery (Some "A") None PyNone (PyTuple ["id"]) (Some 2))
    [entity 1 5; entity 2 5]
  = Ok [entity 1 5; entity 2 5].
Proof.
  apply (apply_twice_is_apply_once
           (mkQuery (Some "A") None PyNone (PyTuple ["id"]) (Some 2))
           example_entities).
  - intros n E. injection E as <-. lia.
  - exact example_entities_sortable_by_id.
  - reflexivity.
Defined.

(* ------------------------------------------------------------------ *)
(** ** Models without the property that a query names *)





